(** * The operation executor of the package manager

    A shallow embedding of [poetry/installation/executor.py]: the scheduler
    ([execute]), the progress reporter ([_write]), the operation dispatcher
    ([_execute_operation]), the install / uninstall handlers and the artifact
    fetcher ([_download]), followed by the properties of the executor.

    Conventions of the embedding.
    - Paths and byte strings are [string]s; the file system is a finite map
      from paths to nodes.
    - Everything the executor does to the outside world is recorded, in
      order, in an event trace ([out]); the file system is threaded through
      the state.
    - Python exceptions are values of [Exn]; a computation returns
      [Ok v] or [Raise e] together with the state reached.
    - The collaborators that are not part of the executor (the installer
      process, the link chooser, the archive builder, the HTTP session, the
      version-control client, the manifest parser, the console capabilities)
      are fields of one record, [Collab], over which every definition is
      parameterised.
    - The worker pool is modelled by one of its schedules: the tasks of a
      chunk run one after the other, each to completion, in submission
      order; the exception of a task is stored in its future and re-raised
      when the futures are joined. *)

From Stdlib Require Import ZArith Ascii String List Sorted Lia DecimalString.
From stdpp Require Import base gmap strings list fin_maps.

(* ===================================================================== *)
(** * Python helpers *)
(* ===================================================================== *)

(** [itertools.islice(iterable, n)] collected in a list: the list returned
    and the iterator advanced past it. *)
Definition take {A} (n : nat) (iterable : list A) : list A * list A :=
  (firstn n iterable, skipn n iterable).

(** [iter(partial(take, n, it), [])]: call [take n] on the shared iterator
    until it returns the sentinel [[]]. The recursion is on a bound of the
    number of calls; [chunked] starts it with one more than the length of
    the iterable. *)
Fixpoint chunked_calls {A} (calls : nat) (n : nat) (it : list A) : list (list A) :=
  match calls with
  | O => []
  | S calls' =>
      match take n it with
      | ([], _) => []
      | (c, it') => c :: chunked_calls calls' n it'
      end
  end.

Definition chunked {A} (iterable : list A) (n : nat) : list (list A) :=
  chunked_calls (S (length iterable)) n iterable.

(** [itertools.groupby(iterable, key)]: the maximal runs of consecutive
    elements with the same key, each with its key. *)
Fixpoint groupby {A K} `{EqDecision K} (key : A -> K) (iterable : list A)
  : list (K * list A) :=
  match iterable with
  | [] => []
  | x :: rest =>
      match groupby key rest with
      | (k, g) :: gs =>
          if decide (key x = k) then (k, x :: g) :: gs
          else (key x, [x]) :: (k, g) :: gs
      | [] => [(key x, [x])]
      end
  end.

(** ["{}".format(n)] for a natural number. *)
Definition str_of_nat (n : nat) : string := NilEmpty.string_of_uint (Nat.to_uint n).

(** ["{}".format(z)] for an integer. *)
Definition str_of_Z (z : Z) : string := NilZero.string_of_int (Z.to_int z).

(** [needle in haystack] on strings. *)
Fixpoint str_contains (needle haystack : string) : bool :=
  String.prefix needle haystack
  || match haystack with
     | EmptyString => false
     | String _ rest => str_contains needle rest
     end.

Definition ESC : string := String (ascii_of_nat 27) EmptyString.
Definition CR : string := String (ascii_of_nat 13) EmptyString.

(** [os.path.join(a, b)] (POSIX). *)
Definition str_last (s : string) : option ascii :=
  match String.length s with
  | O => None
  | S n => String.get n s
  end.

Definition os_path_join (a b : string) : string :=
  if String.prefix "/" b then b
  else match str_last a with
       | None => b
       | Some c => if Ascii.eqb c "/"%char then a +:+ b else a +:+ "/" +:+ b
       end.

(* ===================================================================== *)
(** * Data model *)
(* ===================================================================== *)

(** An entry of [package.files]. *)
Record PkgFile := { file_name : string; file_hash : string }.

Record Package := {
  name : string;
  pretty_name : string;
  unique_name : string;            (* str(package) *)
  version : string;
  full_pretty_version : string;
  source_type : string;
  source_url : string;
  source_reference : string;
  root_dir : option string;
  develop : bool;
  files : list PkgFile;
}.

(** The three operation classes; an [Update] carries both packages and its
    [package] is the target. *)
Inductive Job :=
  | Install (p : Package)
  | Update (initial target : Package)
  | Uninstall (p : Package).

(** [op_id] is [id(operation)]: operations are told apart by identity. *)
Record Operation := {
  op_id : nat;
  job : Job;
  priority : Z;
  skipped : bool;
  skip_reason : string;
}.

Definition job_type (o : Operation) : string :=
  match job o with
  | Install _ => "install"
  | Update _ _ => "update"
  | Uninstall _ => "uninstall"
  end.

Definition package (o : Operation) : Package :=
  match job o with
  | Install p => p
  | Update _ target => target
  | Uninstall p => p
  end.

Record Link := { url : string; filename : string; is_wheel : bool }.

(** The streamed HTTP response: the [content-length] header, if any, and
    the body. *)
Record Response := { content_length : option string; body : string }.

(** Python exceptions, with [str(e)]. *)
Inductive Exn :=
  | CalledProcessError (msg : string)
  | RuntimeError (msg : string)
  | KeyError (msg : string)
  | AttributeError (msg : string)
  | OtherError (cls msg : string).

Definition str_exn (e : Exn) : string :=
  match e with
  | CalledProcessError m | RuntimeError m | KeyError m | AttributeError m => m
  | OtherError _ m => m
  end.

Inductive Res (A : Type) :=
  | Ok (v : A)
  | Raise (e : Exn).
Arguments Ok {A} v.
Arguments Raise {A} e.

(** File-system nodes. *)
Inductive Node :=
  | NFile (content : string)
  | NDir.

Abbreviation FS := (gmap string Node).

(** What the executor does to the outside world. *)
Inductive Event :=
  | EWrite (s : string)            (* io.write *)
  | EWriteLine (s : string)        (* io.write_line *)
  | EOverwrite (s : string)        (* io.overwrite *)
  | ERun (args : list string)      (* env.run("python", "-m", "pip", ...) *)
  | EHttpGet (u : string)          (* session.get(url, stream=True) *)
  | EOpenWrite (path : string)     (* open(path, "w") *)
  | EFileWrite (path chunk : string)
  | ERemove (path : string)        (* os.remove *)
  | EMkdir (path : string)
  | ERmtree (path : string)        (* safe_rmtree *)
  | EChefPrepare (path : string)
  | EHash (path : string)          (* FileDependency(...).hash() *)
  | EBuildSetup (dir : string)     (* SdistBuilder(...).build_setup() *)
  | EGitClone (u dir : string)
  | EGitCheckout (ref dir : string)
  | ESleep.

(** The value returned by a Python function that is observed by a caller. *)
Inductive PyVal :=
  | PyNone
  | PyInt (z : Z)
  | PyStr (s : string).

(** The executor object and the world it acts on. *)
Record State := {
  _dry_run : bool;
  _enabled : bool;
  _verbose : bool;
  _total_operations : nat;
  _executed_operations : nat;
  _lines : gmap nat nat;
  fs : FS;
  out : list Event;
}.

(** [Executor.__init__] on a given file system. *)
Definition init (f : FS) : State :=
  {| _dry_run := false; _enabled := true; _verbose := false;
     _total_operations := 0; _executed_operations := 0;
     _lines := ∅; fs := f; out := [] |}.

Definition set_dry_run (b : bool) (s : State) : State :=
  {| _dry_run := b; _enabled := _enabled s; _verbose := _verbose s;
     _total_operations := _total_operations s;
     _executed_operations := _executed_operations s;
     _lines := _lines s; fs := fs s; out := out s |}.

Definition set_enabled (b : bool) (s : State) : State :=
  {| _dry_run := _dry_run s; _enabled := b; _verbose := _verbose s;
     _total_operations := _total_operations s;
     _executed_operations := _executed_operations s;
     _lines := _lines s; fs := fs s; out := out s |}.

Definition set_verbose (b : bool) (s : State) : State :=
  {| _dry_run := _dry_run s; _enabled := _enabled s; _verbose := b;
     _total_operations := _total_operations s;
     _executed_operations := _executed_operations s;
     _lines := _lines s; fs := fs s; out := out s |}.

Definition set_total (n : nat) (s : State) : State :=
  {| _dry_run := _dry_run s; _enabled := _enabled s; _verbose := _verbose s;
     _total_operations := n;
     _executed_operations := _executed_operations s;
     _lines := _lines s; fs := fs s; out := out s |}.

Definition set_executed (n : nat) (s : State) : State :=
  {| _dry_run := _dry_run s; _enabled := _enabled s; _verbose := _verbose s;
     _total_operations := _total_operations s;
     _executed_operations := n;
     _lines := _lines s; fs := fs s; out := out s |}.

Definition set_lines (l : gmap nat nat) (s : State) : State :=
  {| _dry_run := _dry_run s; _enabled := _enabled s; _verbose := _verbose s;
     _total_operations := _total_operations s;
     _executed_operations := _executed_operations s;
     _lines := l; fs := fs s; out := out s |}.

Definition set_fs (f : FS) (s : State) : State :=
  {| _dry_run := _dry_run s; _enabled := _enabled s; _verbose := _verbose s;
     _total_operations := _total_operations s;
     _executed_operations := _executed_operations s;
     _lines := _lines s; fs := f; out := out s |}.

Definition log (e : Event) (s : State) : State :=
  {| _dry_run := _dry_run s; _enabled := _enabled s; _verbose := _verbose s;
     _total_operations := _total_operations s;
     _executed_operations := _executed_operations s;
     _lines := _lines s; fs := fs s; out := out s ++ [e] |}.

(** [disable], [dry_run] and [verbose] of the executor. *)
Definition disable (s : State) : State := set_enabled false s.
Definition dry_run (b : bool) (s : State) : State := set_dry_run b s.
Definition verbose (b : bool) (s : State) : State := set_verbose b s.

(* ===================================================================== *)
(** * The state-and-exception monad *)
(* ===================================================================== *)

Definition M (A : Type) : Type := State -> Res A * State.

Definition ret {A} (v : A) : M A := fun s => (Ok v, s).
Definition raise {A} (e : Exn) : M A := fun s => (Raise e, s).

Definition bind {A B} (m : M A) (k : A -> M B) : M B :=
  fun s => match m s with
           | (Ok v, s') => k v s'
           | (Raise e, s') => (Raise e, s')
           end.

Notation "'do' x <- m ; k" := (bind m (fun x => k))
  (at level 10, x name, m at level 99, k at level 200).
Notation "m ;; k" := (bind m (fun _ => k))
  (at level 100, k at level 200, right associativity).

Definition get : M State := fun s => (Ok s, s).
Definition modify (f : State -> State) : M unit := fun s => (Ok tt, f s).
Definition emit (e : Event) : M unit := modify (log e).
Definition lift {A} (r : Res A) : M A := fun s => (r, s).

Definition when (b : bool) (m : M unit) : M unit := if b then m else ret tt.

(** [try: body finally: cleanup]. *)
Definition try_finally {A} (body : M A) (cleanup : M unit) : M A :=
  fun s => match body s with
           | (r, s') =>
               match cleanup s' with
               | (Ok _, s'') => (r, s'')
               | (Raise e, s'') => (Raise e, s'')
               end
           end.

(** [try: body except: handler(e)]. *)
Definition try_except {A} (body : M A) (handler : Exn -> M A) : M A :=
  fun s => match body s with
           | (Ok v, s') => (Ok v, s')
           | (Raise e, s') => handler e s'
           end.

(** [for x in l: body(x)]. *)
Fixpoint for_ {A} (l : list A) (body : A -> M unit) : M unit :=
  match l with
  | [] => ret tt
  | x :: rest => body x ;; for_ rest body
  end.

(** [pool.submit(task)]: the task runs to completion; what it returned or
    raised is kept in the future. *)
Definition submit {A} (task : M A) : M (Res A) :=
  fun s => match task s with (r, s') => (Ok r, s') end.

(** [[t.result() for t in tasks]]: the first stored exception is raised. *)
Fixpoint results {A} (tasks : list (Res A)) : M (list A) :=
  match tasks with
  | [] => ret []
  | Ok v :: rest => do vs <- results rest; ret (v :: vs)
  | Raise e :: _ => raise e
  end.

(** The console. *)
Definition io_write (s : string) : M unit := emit (EWrite s).
Definition io_write_line (s : string) : M unit := emit (EWriteLine s).
Definition io_overwrite (s : string) : M unit := emit (EOverwrite s).

(* ===================================================================== *)
(** * Paths and the file system *)
(* ===================================================================== *)

(** The parent of a path (if it has a separator) and its last component:
    [Path.parent] and [Path.name]. *)
Fixpoint path_split (p : string) : option string * string :=
  match p with
  | EmptyString => (None, EmptyString)
  | String c r =>
      match path_split r with
      | (Some d, b) => (Some (String c d), b)
      | (None, b) =>
          if Ascii.eqb c "/"%char then (Some EmptyString, b)
          else (None, String c b)
      end
  end.

Definition path_name (p : string) : string := snd (path_split p).
Definition path_parent (p : string) : string :=
  match fst (path_split p) with
  | Some d => d
  | None => "."
  end.

(** [p] is [dir] or lies below it. *)
Definition under (dir p : string) : bool :=
  String.eqb dir p || String.prefix (dir +:+ "/") p.

Definition exists_ (p : string) : M bool :=
  fun s => (Ok (bool_decide (is_Some (fs s !! p))), s).

(** [Path.mkdir(exist_ok=True)], with or without [parents=True]. Of the
    ancestors only the parent is looked at, when [parents] is off. *)
Definition mkdir (parents : bool) (p : string) : M unit :=
  do s <- get;
  match fs s !! p with
  | Some NDir => ret tt
  | Some (NFile _) => raise (OtherError "FileExistsError" p)
  | None =>
      if parents || bool_decide (is_Some (fs s !! path_parent p))
      then emit (EMkdir p) ;; modify (set_fs (<[p := NDir]> (fs s)))
      else raise (OtherError "FileNotFoundError" p)
  end.

(** [open(p, "w")]: the file is created empty, or truncated. *)
Definition open_w (p : string) : M unit :=
  do s <- get;
  match fs s !! p with
  | Some NDir => raise (OtherError "IsADirectoryError" p)
  | _ => emit (EOpenWrite p) ;; modify (set_fs (<[p := NFile EmptyString]> (fs s)))
  end.

(** [f.write(chunk)] on the file opened at [p]. *)
Definition f_write (p chunk : string) : M unit :=
  do s <- get;
  emit (EFileWrite p chunk) ;;
  match fs s !! p with
  | Some (NFile c) => modify (set_fs (<[p := NFile (c +:+ chunk)]> (fs s)))
  | _ => modify (set_fs (<[p := NFile chunk]> (fs s)))
  end.

(** [os.remove(p)]. *)
Definition os_remove (p : string) : M unit :=
  do s <- get;
  match fs s !! p with
  | Some (NFile _) => emit (ERemove p) ;; modify (set_fs (delete p (fs s)))
  | Some NDir => raise (OtherError "IsADirectoryError" p)
  | None => raise (OtherError "FileNotFoundError" p)
  end.

(** Modelled from the spec: [poetry.utils.helpers.safe_rmtree] is not part of
    the executor's file; it removes the directory and everything below it. *)
Definition safe_rmtree (dir : string) : M unit :=
  do s <- get;
  emit (ERmtree dir) ;;
  modify (set_fs (filter (fun kv : string * Node => under dir (fst kv) = false) (fs s))).

(* ===================================================================== *)
(** * The collaborators of the executor *)
(* ===================================================================== *)

Record Collab := {
  (** [self._env.path] *)
  env_path : string;
  (** [poetry.locations.CACHE_DIR] *)
  CACHE_DIR : string;
  (** [self._env.run] on its arguments: the installer process; it may fail and may
      change the file system. *)
  env_run : list string -> FS -> Res string * FS;
  (** [Chooser.choose_for(package)] *)
  choose_for : Package -> Res Link;
  (** [Session().get(url, stream=True)] *)
  session_get : string -> Res Response;
  (** [Chef.prepare(archive)] *)
  chef_prepare : string -> Res string;
  (** [FileDependency(name, archive).hash()]: the hex SHA-256 digest of the
      file at the path. *)
  hash_of : string -> FS -> Res string;
  (** [TomlFile.read()] followed by
      ["tool" in content and "poetry" in content["tool"]], on the text of
      the manifest. *)
  has_tool_poetry : string -> Res bool;
  (** [Factory().create_poetry(dir)] and the construction of the builder *)
  create_poetry : string -> Res unit;
  (** [decode(builder.build_setup())] *)
  build_setup : string -> Res string;
  (** [Git().clone(url, dir)] and [Git().checkout(ref, dir)] *)
  git_clone : string -> string -> FS -> Res unit * FS;
  git_checkout : string -> string -> FS -> Res unit * FS;
  (** [os.path.realpath] *)
  realpath : string -> string;
  (** [int(math.floor(done / int(wheel_size) * 100))], a floating-point
      computation that fails on a malformed or zero size. *)
  percent_of : nat -> string -> Res Z;
  (** [io.supports_ansi()], [io.output.supports_ansi()], [io.is_debug()] *)
  supports_ansi : bool;
  output_supports_ansi : bool;
  is_debug : bool;
}.

(** [response.iter_content(chunk_size=n)]: the body, cut into consecutive
    pieces of at most [n] bytes. *)
Definition iter_content (r : Response) (n : nat) : list string :=
  map string_of_list_ascii (chunked (list_ascii_of_string (body r)) n).

(* ===================================================================== *)
(** * The executor *)
(* ===================================================================== *)

Section Executor.

Variable ext : Collab.

(** A call of a collaborator that acts on the file system. *)
Definition call_fs {A} (ev : Event) (f : FS -> Res A * FS) : M A :=
  fun s => match f (fs s) with (r, f') => (r, set_fs f' (log ev s)) end.

Definition BULLET : string := "  <fg=blue;options=bold>•</> ".
Definition CHECK : string := "  <fg=green;options=bold>✓</> ".

Definition get_operation_message (operation : Operation) : string :=
  match job operation with
  | Install p =>
      "Installing <c1>" +:+ name p +:+ "</c1> (<c2>" +:+ version p +:+ "</c2>)"
  | Uninstall p =>
      "Removing <c1>" +:+ name p +:+ "</c1> (<c2>" +:+ version p +:+ "</c2>)"
  | Update initial target =>
      "Updating <c1>" +:+ name initial +:+ "</c1> (<c2>" +:+ version initial
      +:+ "</c2> -> <c2>" +:+ version target +:+ "</c2>)"
  end.

(** The progress reporter: rewrite the line allocated to the operation. *)
Definition _write (operation : Operation) (line : string) : M unit :=
  do s <- get;
  match _lines s !! op_id operation with
  | None => raise (KeyError (str_of_nat (op_id operation)))
  | Some row =>
      let diff := (Z.of_nat (size (_lines s)) - Z.of_nat row)%Z in
      io_write (ESC +:+ "[" +:+ str_of_Z diff +:+ "A") ;;
      io_write (ESC +:+ "[2K" +:+ CR) ;;
      io_write_line line ;;
      io_write (ESC +:+ "[" +:+ str_of_Z diff +:+ "B")
  end.

(** [self.run(args)]: the installer, [python -m pip] on the arguments. *)
Definition run (args : list string) : M string :=
  call_fs (ERun args) (env_run ext ("python" :: "-m" :: "pip" :: args)).

Definition plural (n : nat) : string := if Nat.eqb n 1 then EmptyString else "s".

Definition is_job (t : string) (o : Operation) : bool := String.eqb (job_type o) t.

Definition _display_summary (operations : list Operation) : M unit :=
  let skipped_ops := List.filter skipped operations in
  let todo := List.filter (fun o => negb (skipped o)) operations in
  let installs := List.filter (is_job "install") todo in
  let updates := List.filter (is_job "update") todo in
  let uninstalls := List.filter (is_job "uninstall") todo in
  io_write_line EmptyString ;;
  do tail <-
    match skipped_ops with
    | [] => ret EmptyString
    | _ :: _ =>
        (* [self.is_verbose()]: the class defines no such method *)
        raise (AttributeError "'Executor' object has no attribute 'is_verbose'")
    end;
  io_write_line
    ("Package operations: <info>" +:+ str_of_nat (length installs)
     +:+ "</> install" +:+ plural (length installs)
     +:+ ", <info>" +:+ str_of_nat (length updates)
     +:+ "</> update" +:+ plural (length updates)
     +:+ ", <info>" +:+ str_of_nat (length uninstalls)
     +:+ "</> removal" +:+ plural (length uninstalls) +:+ tail) ;;
  io_write_line EmptyString.

(** The body of the download loop of [_download]. *)
Fixpoint download_loop (operation : Operation) (message : string)
    (wheel_size : option string) (archive : string)
    (chunks : list string) (done : nat) : M unit :=
  match chunks with
  | [] => ret tt
  | chunk :: rest =>
      if Nat.eqb (String.length chunk) 0 then ret tt
      else
        let done := done + String.length chunk in
        when (supports_ansi ext || is_debug ext)
          match wheel_size with
          | Some ws =>
              do percent <- lift (percent_of ext done ws);
              _write operation (message +:+ " <c2>" +:+ str_of_Z percent +:+ "%</c2>")
          | None => ret tt
          end ;;
        f_write archive chunk ;;
        download_loop operation message wheel_size archive rest done
  end.

(** The artifact fetcher, up to the verification: the archive taken from
    the cache or downloaded into it (lines 381-426 of [_download]). *)
Definition _download_archive (operation : Operation) : M string :=
  let package := package operation in
  let cache_dir :=
    os_path_join (os_path_join (CACHE_DIR ext) "artifacts") (name package) in
  mkdir true cache_dir ;;
  do link <- lift (choose_for ext package);
  let archive := os_path_join cache_dir (filename link) in
  do cached <- exists_ archive;
  if cached then ret archive
  else
    emit (EHttpGet (url link)) ;;
    do response <- lift (session_get ext (url link));
    let wheel_size := content_length response in
    let message :=
      BULLET +:+ get_operation_message operation +:+ ": <info>Downloading...</>" in
    (if negb (supports_ansi ext) || is_debug ext then io_write_line message
     else match wheel_size with
          | Some _ => _write operation (message +:+ " <c2>0%</c2>")
          | None => ret tt
          end) ;;
    open_w archive ;;
    download_loop operation message wheel_size archive
      (iter_content response 4096) 0 ;;
    if is_wheel link then ret archive
    else emit (EChefPrepare archive) ;; lift (chef_prepare ext archive).

(** The artifact fetcher: the archive, then its verification against the
    hashes the package declares (lines 428-435 of [_download]). *)
Definition _download (operation : Operation) : M string :=
  let package := package operation in
  do archive <- _download_archive operation;
  match files package with
  | [] => ret tt
  | _ :: _ =>
      do h <- call_fs (EHash archive) (fun f => (hash_of ext archive f, f));
      let archive_hash := "sha256:" +:+ h in
      if bool_decide (archive_hash ∈ map file_hash (files package)) then ret tt
      else raise (RuntimeError ("Invalid hash for " +:+ unique_name package
                                +:+ " using archive " +:+ path_name archive))
  end ;;
  ret archive.

Definition _install_directory (package : Package) (from_vcs : bool) : M string :=
  when (negb from_vcs)
    (io_write_line ("  - <c1>" +:+ name package +:+ "</c1> (<c2>"
                    +:+ full_pretty_version package
                    +:+ "</c2>): <fg=blue;options=bold>•</> Installing")) ;;
  let req :=
    match root_dir package with
    | Some r => os_path_join r (source_url package)
    | None => realpath ext (source_url package)
    end in
  let args := ["install"; "--no-deps"; "-U"] in
  let pyproject := os_path_join req "pyproject.toml" in
  do s <- get;
  do has_poetry <-
    match fs s !! pyproject with
    | Some (NFile content) => lift (has_tool_poetry ext content)
    | Some NDir => raise (OtherError "IsADirectoryError" pyproject)
    | None => ret false
    end;
  let has_build_system := false in
  let setup := os_path_join req "setup.py" in
  do has_setup <- exists_ setup;
  when (negb has_setup && has_poetry && (develop package || negb has_build_system))
    (lift (create_poetry ext (path_parent pyproject)) ;;
     open_w setup ;;
     emit (EBuildSetup (path_parent pyproject)) ;;
     do text <- lift (build_setup ext (path_parent pyproject));
     f_write setup text) ;;
  let args := if develop package then args ++ ["-e"] else args in
  let args := args ++ [req] in
  try_finally (run args)
    (if negb has_setup
     then do still <- exists_ setup; when still (os_remove setup)
     else ret tt).

(** The nested function [_clone] of [_install_git]. *)
Definition _clone (package : Package) : M Package :=
  let src_dir := os_path_join (os_path_join (env_path ext) "src") (name package) in
  do present <- exists_ src_dir;
  when present (safe_rmtree src_dir) ;;
  mkdir false (path_parent src_dir) ;;
  call_fs (EGitClone (source_url package) src_dir)
    (git_clone ext (source_url package) src_dir) ;;
  call_fs (EGitCheckout (source_reference package) src_dir)
    (git_checkout ext (source_reference package) src_dir) ;;
  ret {| name := name package; pretty_name := name package;
         unique_name := name package +:+ "-" +:+ version package;
         version := version package; full_pretty_version := version package;
         source_type := "directory"; source_url := src_dir;
         source_reference := EmptyString; root_dir := None; develop := true;
         files := [] |}.

Definition _install_git (package : Package) : M unit :=
  let message := "  - Cloning <info>" +:+ name package +:+ "</info> (<comment>"
                 +:+ full_pretty_version package +:+ "</comment>)" in
  (if negb (output_supports_ansi ext) || is_debug ext
   then io_write_line message else io_write message) ;;
  do pkg <- _clone package;
  let message := "  - Installing <info>" +:+ name package +:+ "</info> (<comment>"
                 +:+ full_pretty_version package +:+ "</comment>)" in
  (if negb (supports_ansi ext) || is_debug ext
   then io_write_line message else io_overwrite message) ;;
  _install_directory pkg true ;;
  ret tt.

Definition _install (operation : Operation) : M unit :=
  let package := package operation in
  if String.eqb (source_type package) "directory" then
    _install_directory package false ;; ret tt
  else if String.eqb (source_type package) "git" then
    _install_git package
  else
    do archive <- _download operation;
    let operation_message := get_operation_message operation in
    let message := BULLET +:+ operation_message +:+ ": <info>Installing...</info>" in
    _write operation message ;;
    let args := ["install"; "--no-deps"; archive] in
    let args :=
      if String.eqb (job_type operation) "update"
      then ["install"; "--no-deps"; "-U"; archive] else args in
    run args ;;
    ret tt.

Definition _update (operation : Operation) : M unit := _install operation.

Definition _remove (operation : Operation) : M unit :=
  let package := package operation in
  (if String.eqb (source_type package) "git" then
     let src_dir := os_path_join (os_path_join (env_path ext) "src") (name package) in
     do present <- exists_ src_dir;
     when present (safe_rmtree src_dir)
   else ret tt) ;;
  try_except (run ["uninstall"; name package; "-y"] ;; ret tt)
    (fun e =>
       match e with
       | CalledProcessError _ =>
           if str_contains "not installed" (str_exn e) then ret tt else raise e
       | _ => raise e
       end).

Definition _execute_install (operation : Operation) : M unit := _install operation.

Definition _execute_update (operation : Operation) : M unit := _update operation.

Definition _execute_uninstall (operation : Operation) : M unit :=
  let message :=
    BULLET +:+ get_operation_message operation +:+ ": <info>Removing...</info>" in
  _write operation message ;;
  _remove operation.

(** The operation dispatcher. *)
Definition _execute_operation (operation : Operation) : M unit :=
  let operation_message := get_operation_message operation in
  do s <- get;
  if skipped operation then
    when (_verbose s && (_enabled s || _dry_run s))
      (io_write_line (BULLET +:+ operation_message +:+ ": <fg=yellow>Skipped</> ("
                      +:+ skip_reason operation +:+ ")"))
  else if negb (_enabled s) || _dry_run s then
    io_write_line (BULLET +:+ operation_message)
  else
    match job operation with
    | Install _ => _execute_install operation
    | Update _ _ => _execute_update operation
    | Uninstall _ => _execute_uninstall operation
    end ;;
    _write operation (CHECK +:+ operation_message) ;;
    modify (fun s => set_executed (_executed_operations s + 1) s).

(** First loop over a chunk: allocate a row to each operation not seen yet
    in the chunk and print its line. *)
Definition allocate_row (operation : Operation) : M unit :=
  do s <- get;
  match _lines s !! op_id operation with
  | Some _ => ret tt
  | None =>
      modify (set_lines (<[op_id operation := size (_lines s)]> (_lines s))) ;;
      io_write_line (BULLET +:+ get_operation_message operation)
  end.

(** Second loop over a chunk: submit every operation to the pool. *)
Fixpoint submit_all (chunk : list Operation) : M (list (Res unit)) :=
  match chunk with
  | [] => ret []
  | operation :: rest =>
      do t <- submit (_execute_operation operation);
      do ts <- submit_all rest;
      ret (t :: ts)
  end.

(** The body of the loop over the chunks of a group. *)
Definition execute_chunk (chunk : list Operation) : M unit :=
  modify (set_lines ∅) ;;
  for_ chunk allocate_row ;;
  do tasks <- submit_all chunk;
  results tasks ;;
  emit ESleep.

(** The groups of the batch, each cut in chunks, as [execute] walks them. *)
Definition schedule (operations : list Operation) : list (list (list Operation)) :=
  map (fun kg => chunked (snd kg) 5) (groupby (fun o => (- priority o)%Z) operations).

(** The scheduler. It has no [return] statement. *)
Definition execute (operations : list Operation) : M PyVal :=
  modify (set_total (length operations)) ;;
  do s <- get;
  when (bool_decide (operations = []) && (_enabled s || _dry_run s))
    (io_write_line "No dependencies to install or update") ;;
  when (negb (bool_decide (operations = [])) && (_enabled s || _dry_run s))
    (_display_summary operations) ;;
  for_ (schedule operations) (fun group => for_ group execute_chunk) ;;
  ret PyNone.

End Executor.

(* ===================================================================== *)
(** * Vocabulary of the properties *)
(* ===================================================================== *)

(** The groups walked by [execute], chunks flattened. *)
Definition groups (operations : list Operation) : list (list Operation) :=
  map (fun group => concat group) (schedule operations).

(** Every operation of an earlier group has a strictly higher priority than
    every operation of a later one: the groups come in descending priority
    order and no priority is shared by two groups. *)
Definition descending_groups (gs : list (list Operation)) : Prop :=
  forall i j g h a b,
    i < j -> gs !! i = Some g -> gs !! j = Some h ->
    a ∈ g -> b ∈ h -> (priority b < priority a)%Z.

(** Neighbouring groups differ in priority. *)
Definition runs_maximal (gs : list (list Operation)) : Prop :=
  forall i g h a b,
    gs !! i = Some g -> gs !! (S i) = Some h ->
    a ∈ g -> b ∈ h -> priority a <> priority b.

(** The batch is handed over sorted by descending priority. *)
Definition sorted_by_priority (operations : list Operation) : Prop :=
  StronglySorted (fun a b => (priority b <= priority a)%Z) operations.

(** The kinds of effect. *)
Inductive Kind :=
  | KConsole | KInstaller | KNetwork | KFile | KBuilder | KHash | KGit | KSleep.

Definition kind (e : Event) : Kind :=
  match e with
  | EWrite _ | EWriteLine _ | EOverwrite _ => KConsole
  | ERun _ => KInstaller
  | EHttpGet _ => KNetwork
  | EOpenWrite _ | EFileWrite _ _ | ERemove _ | EMkdir _ | ERmtree _ => KFile
  | EChefPrepare _ | EBuildSetup _ => KBuilder
  | EHash _ => KHash
  | EGitClone _ _ | EGitCheckout _ _ => KGit
  | ESleep => KSleep
  end.

(** The fields of the executor object are the same in both states. *)
Definition steady (s s' : State) : Prop :=
  _dry_run s' = _dry_run s /\ _enabled s' = _enabled s
  /\ _verbose s' = _verbose s
  /\ _total_operations s' = _total_operations s
  /\ _executed_operations s' = _executed_operations s
  /\ _lines s' = _lines s.

(** From [s] to [s'] the trace grew by events of the allowed kinds. *)
Definition extends (allowed : Kind -> bool) (s s' : State) : Prop :=
  exists evs, out s' = out s ++ evs
              /\ Forall (fun e => allowed (kind e) = true) evs.

(** What a handler may do: leave the executor object alone and add events
    of the allowed kinds. *)
Definition framed (allowed : Kind -> bool) (s s' : State) : Prop :=
  steady s s' /\ extends allowed s s'.

(** The executor is disabled or in dry-run mode. *)
Definition muted (s : State) : Prop := _enabled s = false \/ _dry_run s = true.

(** What the executor may do when muted: report, and nothing else. *)
Definition quiet (s s' : State) : Prop :=
  _dry_run s' = _dry_run s /\ _enabled s' = _enabled s
  /\ _verbose s' = _verbose s
  /\ _executed_operations s' = _executed_operations s
  /\ fs s' = fs s
  /\ extends (fun k => match k with KConsole | KSleep => true | _ => false end) s s'.

(** A computation relates every state it is started in, within the
    invariant, to the state it reaches. *)
Definition respects (I : State -> Prop) (R : State -> State -> Prop) {A}
    (m : M A) : Prop :=
  forall s, I s -> R s (snd (m s)).

Class Frame (I : State -> Prop) (R : State -> State -> Prop) : Prop := {
  frame_refl : forall s, R s s;
  frame_trans : forall s1 s2 s3, R s1 s2 -> R s2 s3 -> R s1 s3;
  frame_inv : forall s s', I s -> R s s' -> I s';
}.

Definition any_state (s : State) : Prop := True.

(** A computation raises the counter of executed operations by at most [n]
    and keeps the mode of the executor. *)
Definition counts (n : nat) {A} (m : M A) : Prop :=
  forall s,
    let s' := snd (m s) in
    _dry_run s' = _dry_run s /\ _enabled s' = _enabled s
    /\ _verbose s' = _verbose s
    /\ _executed_operations s <= _executed_operations s'
        <= _executed_operations s + n.

(** The number of operations of a list that are not skipped. *)
Definition not_skipped (operations : list Operation) : nat :=
  length (List.filter (fun o => negb (skipped o)) operations).

Definition any_kind (k : Kind) : bool := true.

Definition is_ok {A} (r : Res A) : bool :=
  match r with Ok _ => true | Raise _ => false end.

(** The operation really runs: it is not skipped and the executor is
    enabled and not in dry-run mode. *)
Definition runs (s : State) (operation : Operation) : bool :=
  negb (skipped operation) && _enabled s && negb (_dry_run s).

(** Everything but an invocation of the installer. *)
Definition no_installer (k : Kind) : bool :=
  match k with KInstaller => false | _ => true end.

(** Everything but a hash computation and an invocation of the installer. *)
Definition no_hash (k : Kind) : bool :=
  match k with KHash | KInstaller => false | _ => true end.

(** The hashes a package declares: [{f["hash"] for f in package.files}]. *)
Definition declared_hashes (p : Package) : list string := map file_hash (files p).

(** The integrity error of the fetcher. *)
Definition integrity_error (p : Package) (archive : string) : Exn :=
  RuntimeError ("Invalid hash for " +:+ unique_name p
                +:+ " using archive " +:+ path_name archive).

(** The package comes from a registry: neither a directory nor a
    version-control source. *)
Definition from_registry (p : Package) : Prop :=
  String.eqb (source_type p) "directory" = false
  /\ String.eqb (source_type p) "git" = false.

(** The command line handed to [env.run] by [run]. *)
Definition pip (args : list string) : list string :=
  "python" :: "-m" :: "pip" :: args.

(** The checkout of a version-control package. *)
Definition src_dir_of (ext : Collab) (p : Package) : string :=
  os_path_join (os_path_join (env_path ext) "src") (name p).

Definition uninstall_args (p : Package) : list string :=
  ["uninstall"; name p; "-y"].

(** The failure of the uninstall action that [_remove] swallows. *)
Definition absent_error (e : Exn) : bool :=
  match e with
  | CalledProcessError m => str_contains "not installed" m
  | _ => false
  end.

(** The files left once the tree at [dir] is removed. *)
Definition without_tree (dir : string) (f : FS) : FS :=
  filter (fun kv : string * Node => under dir (fst kv) = false) f.

(** The source directory of a directory install, its manifest, its build
    script, and the arguments of the installer. *)
Definition req_of (ext : Collab) (p : Package) : string :=
  match root_dir p with
  | Some r => os_path_join r (source_url p)
  | None => realpath ext (source_url p)
  end.

Definition pyproject_of (ext : Collab) (p : Package) : string :=
  os_path_join (req_of ext p) "pyproject.toml".

Definition setup_of (ext : Collab) (p : Package) : string :=
  os_path_join (req_of ext p) "setup.py".

Definition directory_args (ext : Collab) (p : Package) : list string :=
  (if develop p then ["install"; "--no-deps"; "-U"] ++ ["-e"]
   else ["install"; "--no-deps"; "-U"]) ++ [req_of ext p].

(** Console output and installer invocations only. *)
Definition console_and_installer (k : Kind) : bool :=
  match k with KConsole | KInstaller => true | _ => false end.

(** The progress line printed for an operation before its chunk is
    dispatched. *)
Definition progress_line (operation : Operation) : Event :=
  EWriteLine (BULLET +:+ get_operation_message operation).

(** The first loop of [execute] over a chunk, as a function: the row map
    reached from [lines] and the operations that were given a line, in
    order. *)
Fixpoint allocate (lines : gmap nat nat) (chunk : list Operation)
  : gmap nat nat * list Operation :=
  match chunk with
  | [] => (lines, [])
  | o :: rest =>
      match lines !! op_id o with
      | Some _ => allocate lines rest
      | None =>
          let r := allocate (<[op_id o := size lines]> lines) rest in
          (fst r, o :: snd r)
      end
  end.

(** The second part of the body of the loop over chunks: dispatch, join,
    sleep. *)
Definition dispatch_chunk (ext : Collab) (chunk : list Operation) : M unit :=
  do tasks <- submit_all ext chunk;
  results tasks ;;
  emit ESleep.

(** The status lines of an operation in a trace: the lines written with
    [write_line] that carry the message of the operation. *)
Definition is_status_line (operation : Operation) (e : Event) : bool :=
  match e with
  | EWriteLine l => str_contains (get_operation_message operation) l
  | _ => false
  end.

Definition status_lines (operation : Operation) (evs : list Event) : nat :=
  length (List.filter (is_status_line operation) evs).

(** A cursor-movement or line-erasing escape sequence written to the
    console. *)
Definition is_cursor_escape (e : Event) : bool :=
  match e with
  | EWrite x => String.prefix ESC x
  | _ => false
  end.

(** The network requests and the writes to files in a trace. *)
Definition is_request (e : Event) : bool :=
  match e with EHttpGet _ => true | _ => false end.

Definition is_file_write (e : Event) : bool :=
  match e with EFileWrite _ _ => true | _ => false end.

Definition requests (evs : list Event) : list Event := List.filter is_request evs.

Definition file_writes (evs : list Event) : list Event :=
  List.filter is_file_write evs.

(** The cache directory of a package. *)
Definition cache_dir_of (ext : Collab) (p : Package) : string :=
  os_path_join (os_path_join (CACHE_DIR ext) "artifacts") (name p).

(** The chunks written one after the other. *)
Definition join_chunks (chunks : list string) : string :=
  fold_right String.append EmptyString chunks.

Definition console_only (k : Kind) : bool :=
  match k with KConsole => true | _ => false end.

(** Reporting: the executor object and the files stay as they are and the
    trace grows by console output. *)
Definition reporting (s s' : State) : Prop :=
  steady s s' /\ fs s' = fs s /\ extends console_only s s'.

(* ===================================================================== *)
(** * Sample packages, batches and collaborators *)
(* ===================================================================== *)

Module Sample.

(** A registry package without declared hashes. *)
Definition pkg (n : string) : Package :=
  {| name := n; pretty_name := n; unique_name := n +:+ "-1.0";
     version := "1.0"; full_pretty_version := "1.0";
     source_type := EmptyString; source_url := EmptyString; source_reference := EmptyString;
     root_dir := None; develop := false; files := [] |}.

(** The same package with one declared hash. *)
Definition pkg_with_hash (n h : string) : Package :=
  {| name := n; pretty_name := n; unique_name := n +:+ "-1.0";
     version := "1.0"; full_pretty_version := "1.0";
     source_type := EmptyString; source_url := EmptyString; source_reference := EmptyString;
     root_dir := None; develop := false;
     files := [ {| file_name := n +:+ ".whl"; file_hash := h |} ] |}.

(** A package installed from a directory below [/proj]. *)
Definition dir_pkg (n : string) (dev : bool) : Package :=
  {| name := n; pretty_name := n; unique_name := n +:+ "-1.0";
     version := "1.0"; full_pretty_version := "1.0";
     source_type := "directory"; source_url := n; source_reference := EmptyString;
     root_dir := Some "/proj"; develop := dev; files := [] |}.

(** A package checked out from version control. *)
Definition git_pkg (n : string) : Package :=
  {| name := n; pretty_name := n; unique_name := n +:+ "-1.0";
     version := "1.0"; full_pretty_version := "1.0";
     source_type := "git"; source_url := "https://host/" +:+ n;
     source_reference := "main";
     root_dir := None; develop := false; files := [] |}.

Definition operation (i : nat) (j : Job) (p : Z) : Operation :=
  {| op_id := i; job := j; priority := p; skipped := false; skip_reason := EmptyString |}.

Definition skipped_operation (i : nat) (j : Job) (p : Z) : Operation :=
  {| op_id := i; job := j; priority := p; skipped := true;
     skip_reason := "Already installed" |}.

(** An installer that always succeeds, one that always fails in the way
    given, both leaving the files alone. *)
Definition installer_ok (args : list string) (f : FS) : Res string * FS := (Ok EmptyString, f).

Definition installer_fails (e : Exn) (args : list string) (f : FS)
  : Res string * FS := (Raise e, f).

(** The collaborators, for a console with or without cursor control, in or
    out of debug mode, and a given installer. Every artifact is the wheel
    [<name>.whl] with the ten-byte body [0123456789]; its digest is [abc]. *)
Definition collab (ansi debug : bool)
    (installer : list string -> FS -> Res string * FS) : Collab :=
  {| env_path := "/venv"; CACHE_DIR := "/cache";
     env_run := installer;
     choose_for := fun p =>
       Ok {| url := "https://index/" +:+ name p;
             filename := name p +:+ ".whl"; is_wheel := true |};
     session_get := fun _ =>
       Ok {| content_length := Some "10"; body := "0123456789" |};
     chef_prepare := fun a => Ok a;
     hash_of := fun _ _ => Ok "abc";
     has_tool_poetry := fun _ => Ok true;
     create_poetry := fun _ => Ok tt;
     build_setup := fun _ => Ok "from setuptools import setup";
     git_clone := fun _ _ f => (Ok tt, f);
     git_checkout := fun _ _ f => (Ok tt, f);
     realpath := fun p => p;
     percent_of := fun _ _ => Ok 100%Z;
     supports_ansi := ansi; output_supports_ansi := ansi; is_debug := debug |}.

Definition a : Operation := operation 1 (Install (pkg "a")) 0.
Definition b : Operation := operation 2 (Uninstall (pkg "b")) 1.
Definition c : Operation := operation 3 (Install (pkg "c")) 0.

(** A batch that is not sorted by priority, and the same batch sorted. *)
Definition unsorted_batch : list Operation := [a; b; c].
Definition sorted_batch : list Operation := [b; a; c].

End Sample.

(* ===================================================================== *)
(** * Vocabulary of the further properties *)
(* ===================================================================== *)

(** The exception re-raised when the futures of a chunk are joined. *)
Fixpoint first_error {A} (tasks : list (Res A)) : option Exn :=
  match tasks with
  | [] => None
  | Ok _ :: rest => first_error rest
  | Raise e :: _ => Some e
  end.

(** The operation of a task ran and completed. *)
Definition completed (s : State) (task : Operation * Res unit) : bool :=
  runs s (fst task) && is_ok (snd task).

(** The first part of [execute]: the total, the notice for an empty batch
    and the summary (lines 70-76). *)
Definition announce (operations : list Operation) : M unit :=
  modify (set_total (length operations)) ;;
  do s <- get;
  when (bool_decide (operations = []) && (_enabled s || _dry_run s))
    (io_write_line "No dependencies to install or update") ;;
  when (negb (bool_decide (operations = [])) && (_enabled s || _dry_run s))
    (_display_summary operations).

(** The loop of [execute] over the groups and their chunks (lines 82-105). *)
Definition walk (ext : Collab) (operations : list Operation) : M unit :=
  for_ (schedule operations) (fun group => for_ group (execute_chunk ext)).

(** What [self.is_verbose()] raises. *)
Definition no_is_verbose : Exn :=
  AttributeError "'Executor' object has no attribute 'is_verbose'".

Definition count_job (t : string) (operations : list Operation) : nat :=
  length (List.filter (is_job t) operations).

(** The second line of the summary. *)
Definition summary_line (installs updates uninstalls : nat) : string :=
  "Package operations: <info>" +:+ str_of_nat installs
  +:+ "</> install" +:+ plural installs
  +:+ ", <info>" +:+ str_of_nat updates
  +:+ "</> update" +:+ plural updates
  +:+ ", <info>" +:+ str_of_nat uninstalls
  +:+ "</> removal" +:+ plural uninstalls +:+ EmptyString.

(** The dispatches of a chunk, in submission order: every operation is
    dispatched from the state its predecessor left, whatever the
    predecessors returned or raised, and its task holds what the dispatch
    returned or raised. *)
Fixpoint dispatches (ext : Collab) (chunk : list Operation) (s : State)
  : list (Res unit) * State :=
  match chunk with
  | [] => ([], s)
  | operation :: rest =>
      let rs := _execute_operation ext operation s in
      let rest_rs := dispatches ext rest (snd rs) in
      (fst rs :: fst rest_rs, snd rest_rs)
  end.

(** The invocations of the installer in a trace. *)
Definition installer_calls (evs : list Event) : list Event :=
  List.filter (fun e => match e with ERun _ => true | _ => false end) evs.

(** The git operations in a trace. *)
Definition git_events (evs : list Event) : list Event :=
  List.filter (fun e => match kind e with KGit => true | _ => false end) evs.

(** An installer that fails in the way given when asked to uninstall and
    succeeds otherwise, leaving the files alone. *)
Definition uninstall_fails (e : Exn) (args : list string) (f : FS)
  : Res string * FS :=
  if existsb (String.eqb "uninstall") args then (Raise e, f)
  else (Ok EmptyString, f).

(** Everything but a request to the network and a hash computation. *)
Definition no_fetch (k : Kind) : bool :=
  match k with KNetwork | KHash => false | _ => true end.

(** Everything that stays on the machine: no request to the network, no
    hash computation and no git operation. *)
Definition local_only (k : Kind) : bool :=
  match k with KNetwork | KHash | KGit => false | _ => true end.

(** The escape sequences that move the cursor [n] lines up and down. *)
Definition cursor_up (n : Z) : Event := EWrite (ESC +:+ "[" +:+ str_of_Z n +:+ "A").
Definition cursor_down (n : Z) : Event := EWrite (ESC +:+ "[" +:+ str_of_Z n +:+ "B").
Definition erase_line : Event := EWrite (ESC +:+ "[2K" +:+ CR).

(** Collaborators as in [Sample.collab], on a console with cursor control,
    whose response announces a length of zero, so that the percentage of
    the download cannot be computed. *)
Definition zero_length_collab : Collab :=
  {| env_path := "/venv"; CACHE_DIR := "/cache";
     env_run := Sample.installer_ok;
     choose_for := fun p =>
       Ok {| url := "https://index/" +:+ name p;
             filename := name p +:+ ".whl"; is_wheel := true |};
     session_get := fun _ =>
       Ok {| content_length := Some "0"; body := "0123456789" |};
     chef_prepare := fun a => Ok a;
     hash_of := fun _ _ => Ok "abc";
     has_tool_poetry := fun _ => Ok true;
     create_poetry := fun _ => Ok tt;
     build_setup := fun _ => Ok "from setuptools import setup";
     git_clone := fun _ _ f => (Ok tt, f);
     git_checkout := fun _ _ f => (Ok tt, f);
     realpath := fun p => p;
     percent_of := fun _ _ => Raise (OtherError "ZeroDivisionError" "division by zero");
     supports_ansi := true; output_supports_ansi := true; is_debug := false |}.

(** Collaborators as in [Sample.collab] whose builder fails to produce the
    build script, and collaborators whose clone fails. *)
Definition failing_builder_collab (e : Exn) : Collab :=
  {| env_path := "/venv"; CACHE_DIR := "/cache";
     env_run := Sample.installer_ok;
     choose_for := fun p =>
       Ok {| url := "https://index/" +:+ name p;
             filename := name p +:+ ".whl"; is_wheel := true |};
     session_get := fun _ =>
       Ok {| content_length := Some "10"; body := "0123456789" |};
     chef_prepare := fun a => Ok a;
     hash_of := fun _ _ => Ok "abc";
     has_tool_poetry := fun _ => Ok true;
     create_poetry := fun _ => Ok tt;
     build_setup := fun _ => Raise e;
     git_clone := fun _ _ f => (Raise e, f);
     git_checkout := fun _ _ f => (Ok tt, f);
     realpath := fun p => p;
     percent_of := fun _ _ => Ok 100%Z;
     supports_ansi := true; output_supports_ansi := true; is_debug := false |}.

(** Collaborators as in [Sample.collab] whose clone creates the checkout
    with a project file in it, and whose installer always succeeds. *)
Definition cloning_collab : Collab :=
  {| env_path := "/venv"; CACHE_DIR := "/cache";
     env_run := Sample.installer_ok;
     choose_for := fun p =>
       Ok {| url := "https://index/" +:+ name p;
             filename := name p +:+ ".whl"; is_wheel := true |};
     session_get := fun _ =>
       Ok {| content_length := Some "10"; body := "0123456789" |};
     chef_prepare := fun a => Ok a;
     hash_of := fun _ _ => Ok "abc";
     has_tool_poetry := fun _ => Ok true;
     create_poetry := fun _ => Ok tt;
     build_setup := fun _ => Ok "from setuptools import setup";
     git_clone := fun _ dest f =>
       (Ok tt, <[os_path_join dest "pyproject.toml" := NFile "[tool.poetry]"]>
                 (<[dest := NDir]> f));
     git_checkout := fun _ _ f => (Ok tt, f);
     realpath := fun p => p;
     percent_of := fun _ _ => Ok 100%Z;
     supports_ansi := true; output_supports_ansi := true; is_debug := false |}.

(** The arguments of the installer for the archive of a registry package. *)
Definition archive_args (operation : Operation) (archive : string) : list string :=
  match job operation with
  | Update _ _ => ["install"; "--no-deps"; "-U"; archive]
  | _ => ["install"; "--no-deps"; archive]
  end.

(* ===================================================================== *)
(** * Grouping and chunking *)
(* ===================================================================== *)

Section Grouping.

Context {A K : Type} `{EqDecision K} (key : A -> K).

Lemma groupby_concat (l : list A) :
  concat (map snd (groupby key l)) = l.
Proof.
  induction l as [|x rest IH]; [reflexivity|].
  simpl. destruct (groupby key rest) as [|[k g] gs] eqn:E.
  - simpl in *. now rewrite <- IH.
  - destruct (decide (key x = k)); simpl in *; now rewrite <- IH.
Qed.

Lemma groupby_groups (l : list A) :
  Forall (fun kg => snd kg <> [] /\ Forall (fun x => key x = fst kg) (snd kg))
         (groupby key l).
Proof.
  induction l as [|x rest IH]; [constructor|].
  simpl. destruct (groupby key rest) as [|[k g] gs] eqn:E.
  - repeat constructor. discriminate.
  - inversion IH as [|? ? [Hne Hk] Hgs]; subst. simpl in *.
    destruct (decide (key x = k)) as [Heq|Hd].
    + constructor; [|assumption]. simpl. split; [discriminate|].
      constructor; assumption.
    + constructor; [|constructor; [split|]; assumption].
      simpl. split; [discriminate|]. repeat constructor.
Qed.

(** The first group starts with the first element. *)
Lemma groupby_head (x : A) (rest : list A) :
  exists g gs, groupby key (x :: rest) = (key x, x :: g) :: gs.
Proof.
  simpl. destruct (groupby key rest) as [|[k g] gs].
  - now exists [], [].
  - destruct (decide (key x = k)) as [<-|Hd]; eauto.
Qed.

End Grouping.

(** On a list whose keys never decrease, the keys of the groups strictly
    increase. *)
Lemma groupby_sorted_keys {A} (key : A -> Z) (l : list A) :
  StronglySorted (fun a b => (key a <= key b)%Z) l ->
  StronglySorted Z.lt (map fst (groupby key l)).
Proof.
  induction l as [|x rest IH]; intros Hs; [constructor|].
  inversion Hs as [|? ? Hrest Hall]; subst.
  specialize (IH Hrest).
  destruct rest as [|y rest'].
  - simpl. repeat constructor.
  - destruct (groupby_head key y rest') as (g & gs & E).
    change (groupby key (x :: y :: rest'))
      with (match groupby key (y :: rest') with
            | (k, g) :: gs =>
                if decide (key x = k) then (k, x :: g) :: gs
                else (key x, [x]) :: (k, g) :: gs
            | [] => [(key x, [x])]
            end).
    rewrite E in *. simpl in IH.
    destruct (decide (key x = key y)) as [Heq|Hne]; simpl; [assumption|].
    inversion Hall as [|? ? Hxy _]; subst.
    constructor; [assumption|].
    inversion IH as [|? ? _ Hlt]; subst.
    constructor; [lia|].
    eapply Forall_impl; [exact Hlt|]. simpl. intros; lia.
Qed.

Section Chunking.

Context {A : Type}.

Lemma chunked_calls_concat (calls n : nat) (it : list A) :
  0 < n -> length it < calls -> concat (chunked_calls calls n it) = it.
Proof.
  intros Hn. revert it.
  induction calls as [|calls IH]; intros it Hlen; [lia|].
  simpl. unfold take.
  destruct it as [|x it'].
  - destruct n; reflexivity.
  - destruct n as [|n]; [lia|].
    change (firstn (S n) (x :: it')) with (x :: firstn n it').
    change (skipn (S n) (x :: it')) with (skipn n it').
    simpl. rewrite IH.
    + now rewrite firstn_skipn.
    + rewrite length_skipn. simpl in Hlen. lia.
Qed.

Lemma chunked_concat (l : list A) (n : nat) :
  0 < n -> concat (chunked l n) = l.
Proof. intros Hn. apply chunked_calls_concat; [assumption|lia]. Qed.

Lemma chunked_calls_bound (calls n : nat) (it : list A) :
  Forall (fun c => 1 <= length c <= n) (chunked_calls calls n it).
Proof.
  revert it. induction calls as [|calls IH]; intros it; [constructor|].
  simpl. unfold take.
  destruct (firstn n it) as [|x c] eqn:E; [constructor|].
  constructor; [|apply IH].
  rewrite <- E. rewrite length_firstn.
  assert (length (firstn n it) = S (length c)) by now rewrite E.
  rewrite length_firstn in H. lia.
Qed.

Lemma chunked_bound (l : list A) (n : nat) :
  Forall (fun c => 1 <= length c <= n) (chunked l n).
Proof. apply chunked_calls_bound. Qed.

End Chunking.

Lemma groupby_adjacent {A K} `{EqDecision K} (key : A -> K) (l : list A) i k k' :
  map fst (groupby key l) !! i = Some k ->
  map fst (groupby key l) !! (S i) = Some k' -> k <> k'.
Proof.
  revert i. induction l as [|x rest IH]; intros i; [discriminate|].
  simpl. destruct (groupby key rest) as [|[k0 g] gs] eqn:E; [discriminate|].
  destruct (decide (key x = k0)) as [Heq|Hne].
  - apply IH.
  - destruct i as [|i]; simpl.
    + intros [= <-] [= <-]. assumption.
    + apply IH.
Qed.

Lemma StronglySorted_lookup_lt {A} (R : A -> A -> Prop) (l : list A) i j x y :
  StronglySorted R l -> i < j -> l !! i = Some x -> l !! j = Some y -> R x y.
Proof.
  intros Hs. revert i j. induction Hs as [|a l Hs IH Hall]; intros i j Hij Hi Hj.
  - discriminate.
  - destruct j as [|j]; [lia|]. simpl in Hj.
    destruct i as [|i]; simpl in Hi.
    + injection Hi as <-. rewrite Forall_forall in Hall.
      apply Hall. eapply list_elem_of_lookup_2. exact Hj.
    + apply (IH i j); [lia|assumption..].
Qed.

(** The groups of [execute] are the runs found by [groupby]. *)
Lemma groups_groupby (operations : list Operation) :
  groups operations =
  map snd (groupby (fun o => (- priority o)%Z) operations).
Proof.
  unfold groups, schedule. rewrite map_map. apply map_ext.
  intros [k g]. simpl. apply chunked_concat. lia.
Qed.

Lemma groups_lookup (operations : list Operation) i g :
  groups operations !! i = Some g ->
  exists k, groupby (fun o => (- priority o)%Z) operations !! i = Some (k, g)
            /\ map fst (groupby (fun o => (- priority o)%Z) operations) !! i = Some k
            /\ forall o, o ∈ g -> (- priority o)%Z = k.
Proof.
  rewrite groups_groupby, list_lookup_fmap.
  destruct (groupby _ operations !! i) as [[k g']|] eqn:E; [|discriminate].
  simpl. intros [= <-]. exists k. split; [reflexivity|].
  split; [now rewrite list_lookup_fmap, E|].
  pose proof (groupby_groups (fun o => (- priority o)%Z) operations) as HF.
  rewrite Forall_forall in HF.
  destruct (HF (k, g')) as [_ Hk].
  { eapply list_elem_of_lookup_2. exact E. }
  simpl in Hk. rewrite Forall_forall in Hk. exact Hk.
Qed.

Lemma schedule_concat (operations : list Operation) :
  concat (concat (schedule operations)) = operations.
Proof.
  rewrite <- (groupby_concat (fun o => (- priority o)%Z) operations) at 2.
  rewrite <- groups_groupby. unfold groups.
  induction (schedule operations) as [|g gs IH]; [reflexivity|].
  simpl. now rewrite concat_app, IH.
Qed.

(* ===================================================================== *)
(** * Running the monad *)
(* ===================================================================== *)

Lemma bind_get {A} (k : State -> M A) s : bind get k s = k s s.
Proof. reflexivity. Qed.

Lemma bind_ok {A B} (m : M A) (k : A -> M B) s v s1 :
  m s = (Ok v, s1) -> bind m k s = k v s1.
Proof. intros H. unfold bind. now rewrite H. Qed.

Lemma bind_raise {A B} (m : M A) (k : A -> M B) s e s1 :
  m s = (Raise e, s1) -> bind m k s = (Raise e, s1).
Proof. intros H. unfold bind. now rewrite H. Qed.

Lemma bind_inv {A B} (m : M A) (k : A -> M B) s r s' :
  bind m k s = (r, s') ->
  (exists v s1, m s = (Ok v, s1) /\ k v s1 = (r, s'))
  \/ (exists e, m s = (Raise e, s') /\ r = Raise e).
Proof.
  unfold bind. destruct (m s) as [[v|e] s1]; intros H.
  - left. eauto.
  - right. injection H as <- <-. eauto.
Qed.

(* ===================================================================== *)
(** * Frame reasoning over the monad *)
(* ===================================================================== *)

Section Respects.

Context (I : State -> Prop) (R : State -> State -> Prop) `{!Frame I R}.

Lemma respects_ret {A} (v : A) : respects I R (ret v).
Proof. intros s _. apply frame_refl. Qed.

Lemma respects_raise {A} (e : Exn) : respects I R (@raise A e).
Proof. intros s _. apply frame_refl. Qed.

Lemma respects_lift {A} (r : Res A) : respects I R (lift r).
Proof. intros s _. apply frame_refl. Qed.

Lemma respects_get : respects I R get.
Proof. intros s _. apply frame_refl. Qed.

Lemma respects_exists p : respects I R (exists_ p).
Proof. intros s _. apply frame_refl. Qed.

Lemma respects_bind {A B} (m : M A) (k : A -> M B) :
  respects I R m -> (forall v, respects I R (k v)) -> respects I R (bind m k).
Proof.
  intros Hm Hk s Hs. unfold bind. specialize (Hm s Hs).
  destruct (m s) as [[v|e] s1]; simpl in *; [|exact Hm].
  eapply frame_trans; [exact Hm|]. apply Hk. eapply frame_inv; eauto.
Qed.

(** Binding the state read by [get]: the continuation only has to respect
    the relation from the state it was given. *)
Lemma respects_bind_get {A} (k : State -> M A) :
  (forall s, I s -> R s (snd (k s s))) -> respects I R (bind get k).
Proof. intros Hk s Hs. unfold bind, get. apply Hk, Hs. Qed.

Lemma respects_when (b : bool) (m : M unit) :
  respects I R m -> respects I R (when b m).
Proof. intros Hm. destruct b; [exact Hm|apply respects_ret]. Qed.

Lemma respects_for {A} (l : list A) (body : A -> M unit) :
  (forall x, x ∈ l -> respects I R (body x)) -> respects I R (for_ l body).
Proof.
  induction l as [|x l IH]; intros Hb; simpl; [apply respects_ret|].
  apply respects_bind; [apply Hb; left|].
  intros _. apply IH. intros y Hy. apply Hb. now right.
Qed.

Lemma respects_try_finally {A} (body : M A) (cleanup : M unit) :
  respects I R body -> respects I R cleanup ->
  respects I R (try_finally body cleanup).
Proof.
  intros Hb Hc s Hs. unfold try_finally. specialize (Hb s Hs).
  destruct (body s) as [r s1]. simpl in Hb.
  assert (I s1) as Hs1 by (eapply frame_inv; eauto).
  specialize (Hc s1 Hs1).
  destruct (cleanup s1) as [[[]|e] s2]; simpl in *;
    eapply frame_trans; eauto.
Qed.

Lemma respects_try_except {A} (body : M A) (handler : Exn -> M A) :
  respects I R body -> (forall e, respects I R (handler e)) ->
  respects I R (try_except body handler).
Proof.
  intros Hb Hh s Hs. unfold try_except. specialize (Hb s Hs).
  destruct (body s) as [[v|e] s1]; simpl in *; [exact Hb|].
  eapply frame_trans; [exact Hb|]. apply Hh. eapply frame_inv; eauto.
Qed.

Lemma respects_submit {A} (task : M A) :
  respects I R task -> respects I R (submit task).
Proof.
  intros Ht s Hs. unfold submit. specialize (Ht s Hs).
  now destruct (task s).
Qed.

Lemma respects_results {A} (tasks : list (Res A)) : respects I R (results tasks).
Proof.
  induction tasks as [|[v|e] tasks IH]; simpl.
  - apply respects_ret.
  - apply respects_bind; [exact IH|]. intros; apply respects_ret.
  - apply respects_raise.
Qed.

End Respects.

Lemma respects_modify I R (f : State -> State) :
  (forall s, I s -> R s (f s)) -> respects I R (modify f).
Proof. intros Hf s Hs. apply Hf, Hs. Qed.

Lemma steady_refl s : steady s s.
Proof. repeat split. Qed.

Lemma steady_trans s1 s2 s3 : steady s1 s2 -> steady s2 s3 -> steady s1 s3.
Proof. unfold steady. intuition congruence. Qed.

Lemma extends_refl allowed s : extends allowed s s.
Proof. exists []. split; [now rewrite app_nil_r|constructor]. Qed.

Lemma extends_trans allowed s1 s2 s3 :
  extends allowed s1 s2 -> extends allowed s2 s3 -> extends allowed s1 s3.
Proof.
  intros (e1 & H1 & F1) (e2 & H2 & F2). exists (e1 ++ e2). split.
  - now rewrite H2, H1, app_assoc.
  - apply Forall_app. now split.
Qed.

Lemma extends_log (allowed : Kind -> bool) e s :
  allowed (kind e) = true -> extends allowed s (log e s).
Proof. intros He. exists [e]. split; [reflexivity|]. now constructor. Qed.

Lemma extends_weaken (a1 a2 : Kind -> bool) s s' :
  (forall k, a1 k = true -> a2 k = true) -> extends a1 s s' -> extends a2 s s'.
Proof.
  intros Hk (evs & H & F). exists evs. split; [exact H|].
  eapply Forall_impl; [exact F|]. intros e. apply Hk.
Qed.

#[export] Instance framed_frame allowed : Frame any_state (framed allowed).
Proof.
  split.
  - intros s. split; [apply steady_refl|apply extends_refl].
  - intros s1 s2 s3 [S1 E1] [S2 E2]. split;
      [eapply steady_trans|eapply extends_trans]; eauto.
  - intros; exact Logic.I.
Qed.

#[export] Instance quiet_frame : Frame muted quiet.
Proof.
  split.
  - intros s. unfold quiet. repeat split. apply extends_refl.
  - intros s1 s2 s3 (A1 & B1 & C1 & D1 & F1 & E1) (A2 & B2 & C2 & D2 & F2 & E2).
    unfold quiet. repeat split; try congruence.
    eapply extends_trans; eauto.
  - intros s s' Hm (A & B & _). unfold muted in *. rewrite A, B. exact Hm.
Qed.

Create HintDb frame.

(** One step of a frame proof: follow the structure of the computation. *)
Ltac frame_step :=
  match goal with
  | |- Frame _ _ => typeclasses eauto
  | |- forall _, _ => intro
  | |- respects _ _ (ret _) => apply respects_ret
  | |- respects _ _ (raise _) => apply respects_raise
  | |- respects _ _ (lift _) => apply respects_lift
  | |- respects _ _ get => apply respects_get
  | |- respects _ _ (exists_ _) => apply respects_exists
  | |- respects _ _ (results _) => apply respects_results
  | |- respects _ _ (bind _ _) => apply respects_bind
  | |- respects _ _ (when _ _) => apply respects_when
  | |- respects _ _ (try_finally _ _) => apply respects_try_finally
  | |- respects _ _ (try_except _ _) => apply respects_try_except
  | |- respects _ _ (submit _) => apply respects_submit
  | |- respects _ _ (match ?x with _ => _ end) => destruct x
  | |- respects _ _ _ => solve [auto with frame]
  end.

Ltac frame := repeat frame_step.

(** ** The primitives under [framed] *)

Section FramedPrimitives.

Context (allowed : Kind -> bool).

Abbreviation ok := (respects any_state (framed allowed)).

Lemma framed_log e s : allowed (kind e) = true -> framed allowed s (log e s).
Proof. intros He. split; [repeat split|now apply extends_log]. Qed.

Lemma framed_set_fs f s : framed allowed s (set_fs f s).
Proof. split; [repeat split|apply (extends_refl allowed s)]. Qed.

Lemma framed_emit e : allowed (kind e) = true -> ok (emit e).
Proof. intros He s _. now apply framed_log. Qed.

Lemma framed_modify_fs f : ok (modify (set_fs f)).
Proof. intros s _. apply framed_set_fs. Qed.

Lemma framed_call_fs {A} e (f : FS -> Res A * FS) :
  allowed (kind e) = true -> ok (call_fs e f).
Proof.
  intros He s _. unfold call_fs. destruct (f (fs s)) as [r f']. simpl.
  eapply frame_trans; [apply (framed_log e s He)|apply framed_set_fs].
Qed.

Lemma framed_console_write x : allowed KConsole = true -> ok (io_write x).
Proof. intros. now apply framed_emit. Qed.

Lemma framed_console_write_line x :
  allowed KConsole = true -> ok (io_write_line x).
Proof. intros. now apply framed_emit. Qed.

Lemma framed_console_overwrite x :
  allowed KConsole = true -> ok (io_overwrite x).
Proof. intros. now apply framed_emit. Qed.

#[local] Hint Resolve framed_emit framed_modify_fs framed_call_fs
  framed_console_write framed_console_write_line framed_console_overwrite : frame.

Lemma framed_mkdir parents p : allowed KFile = true -> ok (mkdir parents p).
Proof. intros Hf. unfold mkdir. frame. Qed.

Lemma framed_open_w p : allowed KFile = true -> ok (open_w p).
Proof. intros Hf. unfold open_w. frame. Qed.

Lemma framed_f_write p chunk : allowed KFile = true -> ok (f_write p chunk).
Proof. intros Hf. unfold f_write. frame. Qed.

Lemma framed_os_remove p : allowed KFile = true -> ok (os_remove p).
Proof. intros Hf. unfold os_remove. frame. Qed.

Lemma framed_safe_rmtree dir : allowed KFile = true -> ok (safe_rmtree dir).
Proof. intros Hf. unfold safe_rmtree. frame. Qed.

Lemma framed_write operation line :
  allowed KConsole = true -> ok (_write operation line).
Proof. intros Hc. unfold _write. frame. Qed.

End FramedPrimitives.

#[export] Hint Resolve framed_emit framed_modify_fs framed_call_fs
  framed_console_write framed_console_write_line framed_console_overwrite
  framed_mkdir framed_open_w framed_f_write framed_os_remove
  framed_safe_rmtree framed_write : frame.

(** ** The handlers under [framed] *)

Section FramedHandlers.

Context (ext : Collab) (allowed : Kind -> bool).

Abbreviation fine := (respects any_state (framed allowed)).

Lemma framed_run args : allowed KInstaller = true -> fine (run ext args).
Proof. intros. unfold run. frame. Qed.

Lemma framed_download_loop operation message wheel_size archive chunks done :
  allowed KConsole = true -> allowed KFile = true ->
  fine (download_loop ext operation message wheel_size archive chunks done).
Proof.
  intros Hc Hf. revert done.
  induction chunks as [|chunk rest IH]; intros done; simpl; [frame|].
  destruct (String.length chunk =? 0); [frame|].
  apply respects_bind; [typeclasses eauto|frame|].
  intros _. apply respects_bind; [typeclasses eauto|frame|].
  intros _. apply IH.
Qed.

Lemma framed_download_archive operation :
  allowed KConsole = true -> allowed KFile = true ->
  allowed KNetwork = true -> allowed KBuilder = true ->
  fine (_download_archive ext operation).
Proof.
  intros Hc Hf Hn Hb. unfold _download_archive.
  pose proof framed_download_loop. frame.
Qed.

Lemma framed_download operation :
  allowed KConsole = true -> allowed KFile = true ->
  allowed KNetwork = true -> allowed KBuilder = true ->
  allowed KHash = true ->
  fine (_download ext operation).
Proof.
  intros Hc Hf Hn Hb Hh. unfold _download.
  pose proof framed_download_archive. frame.
Qed.

Lemma framed_install_directory package from_vcs :
  allowed KConsole = true -> allowed KFile = true ->
  allowed KBuilder = true -> allowed KInstaller = true ->
  fine (_install_directory ext package from_vcs).
Proof.
  intros Hc Hf Hb Hi. unfold _install_directory.
  pose proof framed_run. frame.
Qed.

Lemma framed_clone package :
  allowed KFile = true -> allowed KGit = true -> fine (_clone ext package).
Proof. intros Hf Hg. unfold _clone. frame. Qed.

Lemma framed_remove operation :
  allowed KFile = true -> allowed KInstaller = true ->
  fine (_remove ext operation).
Proof. intros Hf Hi. unfold _remove. pose proof framed_run. frame. Qed.

End FramedHandlers.

Section AnyKind.

Context (ext : Collab).

Lemma framed_install_git package :
  respects any_state (framed any_kind) (_install_git ext package).
Proof.
  unfold _install_git.
  pose proof (framed_clone ext any_kind).
  pose proof (framed_install_directory ext any_kind).
  frame.
Qed.

Lemma framed_install operation :
  respects any_state (framed any_kind) (_install ext operation).
Proof.
  unfold _install.
  pose proof framed_install_git.
  pose proof (framed_install_directory ext any_kind).
  pose proof (framed_download ext any_kind).
  pose proof (framed_run ext any_kind).
  frame.
Qed.

Lemma framed_execute_uninstall operation :
  respects any_state (framed any_kind) (_execute_uninstall ext operation).
Proof.
  unfold _execute_uninstall. pose proof (framed_remove ext any_kind). frame.
Qed.

(** The three handlers leave the executor object alone. *)
Lemma framed_handler operation :
  respects any_state (framed any_kind)
    (match job operation with
     | Install _ => _execute_install ext operation
     | Update _ _ => _execute_update ext operation
     | Uninstall _ => _execute_uninstall ext operation
     end).
Proof.
  pose proof framed_install. pose proof framed_execute_uninstall.
  unfold _execute_install, _execute_update, _update. frame.
Qed.

(** What the dispatcher does to the counter and to the mode. *)
Lemma dispatch_counter operation s r s' :
  _execute_operation ext operation s = (r, s') ->
  _dry_run s' = _dry_run s /\ _enabled s' = _enabled s
  /\ _verbose s' = _verbose s /\ _lines s' = _lines s
  /\ _executed_operations s' =
     _executed_operations s + (if runs s operation && is_ok r then 1 else 0).
Proof.
  unfold _execute_operation, runs. rewrite bind_get.
  destruct (skipped operation); simpl.
  { destruct (_verbose s && _); simpl; intros [= <- <-]; simpl;
      repeat split; try lia. }
  destruct (_enabled s) eqn:En; simpl;
    [destruct (_dry_run s) eqn:Dr; simpl|];
    try (intros [= <- <-]; simpl; repeat split; solve [congruence | lia]).
  intros H.
  apply bind_inv in H as [(v & s1 & Hh & H)|(e & Hh & ->)];
    pose proof (framed_handler operation s Logic.I) as [St _];
    rewrite Hh in St; simpl in St;
    destruct St as (? & ? & ? & ? & ? & ?).
  2:{ simpl. repeat split; try congruence; try lia. }
  apply bind_inv in H as [(v2 & s2 & Hw & H)|(e & Hw & ->)];
    pose proof (framed_write any_kind operation
                  (CHECK +:+ get_operation_message operation) eq_refl s1 Logic.I)
      as [St2 _];
    rewrite Hw in St2; simpl in St2;
    destruct St2 as (? & ? & ? & ? & ? & ?).
  2:{ simpl. repeat split; try congruence; try lia. }
  injection H as <- <-. simpl. repeat split; try congruence; try lia.
Qed.

End AnyKind.

(* ===================================================================== *)
(** * The counter of executed operations *)
(* ===================================================================== *)

Lemma counts_ret {A} (v : A) : counts 0 (ret v).
Proof. intros s; simpl. repeat split; lia. Qed.

Lemma counts_raise {A} e : counts 0 (@raise A e).
Proof. intros s; simpl. repeat split; lia. Qed.

Lemma counts_weaken {A} n n' (m : M A) : n <= n' -> counts n m -> counts n' m.
Proof. intros Hn Hm s. specialize (Hm s). simpl in *. intuition lia. Qed.

Lemma counts_bind {A B} n n' (m : M A) (k : A -> M B) :
  counts n m -> (forall v, counts n' (k v)) -> counts (n + n') (bind m k).
Proof.
  intros Hm Hk s. specialize (Hm s). unfold bind. simpl in *.
  destruct (m s) as [[v|e] s1]; simpl in *.
  - specialize (Hk v s1). simpl in Hk.
    destruct Hm as (? & ? & ? & ?), Hk as (? & ? & ? & ?).
    repeat split; try congruence; lia.
  - intuition lia.
Qed.

Lemma counts_bind_get {A} n (k : State -> M A) :
  (forall s0, counts n (k s0)) -> counts n (bind get k).
Proof. intros H s. rewrite bind_get. apply (H s s). Qed.

Lemma counts_modify (f : State -> State) :
  (forall s, _dry_run (f s) = _dry_run s /\ _enabled (f s) = _enabled s
             /\ _verbose (f s) = _verbose s
             /\ _executed_operations (f s) = _executed_operations s) ->
  counts 0 (modify f).
Proof. intros Hf s. simpl. specialize (Hf s). intuition lia. Qed.

Lemma counts_emit e : counts 0 (emit e).
Proof. apply counts_modify. intros s. repeat split. Qed.

Lemma counts_when n b (m : M unit) : counts n m -> counts n (when b m).
Proof.
  intros Hm. destruct b; [exact Hm|].
  eapply counts_weaken; [|apply counts_ret]. lia.
Qed.

Lemma counts_for {A} (w : A -> nat) (l : list A) (body : A -> M unit) :
  (forall x, counts (w x) (body x)) -> counts (list_sum (map w l)) (for_ l body).
Proof.
  intros Hb. induction l as [|x l IH]; simpl; [apply counts_ret|].
  apply counts_bind; [apply Hb|]. intros _. exact IH.
Qed.

Lemma counts_results {A} (tasks : list (Res A)) : counts 0 (results tasks).
Proof.
  induction tasks as [|[v|e] tasks IH]; simpl.
  - apply counts_ret.
  - change 0 with (0 + 0). apply counts_bind; [exact IH|].
    intros; apply counts_ret.
  - apply counts_raise.
Qed.

Lemma not_skipped_cons o l :
  not_skipped (o :: l) = (if skipped o then 0 else 1) + not_skipped l.
Proof. unfold not_skipped. simpl. now destruct (skipped o). Qed.

Lemma not_skipped_app l1 l2 :
  not_skipped (l1 ++ l2) = not_skipped l1 + not_skipped l2.
Proof. unfold not_skipped. now rewrite List.filter_app, length_app. Qed.

Lemma not_skipped_concat (ls : list (list Operation)) :
  list_sum (map not_skipped ls) = not_skipped (concat ls).
Proof.
  induction ls as [|l ls IH]; [reflexivity|].
  simpl. now rewrite not_skipped_app, IH.
Qed.

Section Counter.

Context (ext : Collab).

Lemma counts_dispatch operation :
  counts (if skipped operation then 0 else 1) (_execute_operation ext operation).
Proof.
  intros s. simpl.
  destruct (_execute_operation ext operation s) as [r s'] eqn:E.
  apply dispatch_counter in E as (? & ? & ? & _ & Hc). simpl.
  repeat split; try assumption; rewrite Hc; unfold runs;
    destruct (skipped operation), (_enabled s), (_dry_run s), (is_ok r);
    simpl; lia.
Qed.

Lemma counts_submit_all chunk : counts (not_skipped chunk) (submit_all ext chunk).
Proof.
  induction chunk as [|o chunk IH]; simpl; [apply counts_ret|].
  rewrite not_skipped_cons. apply counts_bind.
  - intros s. pose proof (counts_dispatch o s) as H. unfold submit. simpl in *.
    now destruct (_execute_operation ext o s).
  - intros t. replace (not_skipped chunk) with (not_skipped chunk + 0) by lia.
    apply counts_bind; [exact IH|]. intros; apply counts_ret.
Qed.

Lemma counts_allocate_row operation : counts 0 (allocate_row operation).
Proof.
  intros s. unfold allocate_row. rewrite bind_get.
  destruct (_lines s !! op_id operation); simpl; repeat split; lia.
Qed.

Lemma counts_execute_chunk chunk : counts (not_skipped chunk) (execute_chunk ext chunk).
Proof.
  unfold execute_chunk.
  change (not_skipped chunk) with (0 + not_skipped chunk).
  apply counts_bind; [apply counts_modify; intros; repeat split|]. intros _.
  change (not_skipped chunk) with (0 + not_skipped chunk).
  apply counts_bind.
  { replace 0 with (list_sum (map (fun _ : Operation => 0) chunk)).
    - apply counts_for. intros; apply counts_allocate_row.
    - induction chunk; simpl; auto. }
  intros _.
  replace (not_skipped chunk) with (not_skipped chunk + (0 + 0)) by lia.
  apply counts_bind; [apply counts_submit_all|]. intros tasks.
  apply counts_bind; [apply counts_results|]. intros _. apply counts_emit.
Qed.

Lemma counts_display_summary operations : counts 0 (_display_summary operations).
Proof.
  unfold _display_summary.
  change 0 with (0 + (0 + (0 + 0))).
  apply counts_bind; [apply counts_emit|]. intros _.
  apply counts_bind.
  { destruct (List.filter skipped operations); [apply counts_ret|apply counts_raise]. }
  intros tail.
  apply counts_bind; [apply counts_emit|]. intros _. apply counts_emit.
Qed.

Lemma counts_walk operations :
  counts (not_skipped operations)
    (for_ (schedule operations) (fun group => for_ group (execute_chunk ext))).
Proof.
  assert (not_skipped operations =
          list_sum (map (fun g => list_sum (map not_skipped g))
                        (schedule operations))) as ->.
  { generalize (schedule_concat operations).
    generalize (schedule operations). intros S <-.
    induction S as [|g S IH]; [reflexivity|].
    simpl. now rewrite concat_app, not_skipped_app, IH, not_skipped_concat. }
  apply counts_for. intros group. apply counts_for. apply counts_execute_chunk.
Qed.

Lemma counts_execute operations :
  counts (not_skipped operations) (execute ext operations).
Proof.
  unfold execute.
  change (not_skipped operations) with (0 + not_skipped operations).
  apply counts_bind; [apply counts_modify; intros; repeat split|]. intros _.
  apply counts_bind_get. intros s0.
  apply counts_weaken with (n := 0 + (0 + (not_skipped operations + 0))); [lia|].
  apply counts_bind; [apply counts_when, counts_emit|]. intros _.
  apply counts_bind; [apply counts_when, counts_display_summary|]. intros _.
  apply counts_bind; [apply counts_walk|]. intros _. apply counts_ret.
Qed.

End Counter.

Lemma execute_none ext operations s v s' :
  execute ext operations s = (Ok v, s') -> v = PyNone.
Proof.
  unfold execute. intros H.
  apply bind_inv in H as [(? & ? & _ & H)|(? & _ & [=])].
  rewrite bind_get in H.
  apply bind_inv in H as [(? & ? & _ & H)|(? & _ & [=])].
  apply bind_inv in H as [(? & ? & _ & H)|(? & _ & [=])].
  apply bind_inv in H as [(? & ? & _ & H)|(? & _ & [=])].
  now injection H as <- _.
Qed.

(* ===================================================================== *)
(** * The scheduler: groups and chunks *)
(* ===================================================================== *)

(** C1, as the code has it. [execute] never reorders the batch: it cuts it,
    in order, into the maximal runs of consecutive operations of equal
    priority, and each run, in order, into chunks of one to five
    operations. When the batch is handed over sorted by descending
    priority, the runs are the priority groups in strictly descending
    order, each priority in one group. *)
Theorem C1_schedule_partition (operations : list Operation) :
  concat (concat (schedule operations)) = operations
  /\ Forall (Forall (fun chunk => 1 <= length chunk <= 5)) (schedule operations)
  /\ Forall (fun g => g <> [] /\ exists p, Forall (fun o => priority o = p) g)
            (groups operations)
  /\ runs_maximal (groups operations)
  /\ (sorted_by_priority operations -> descending_groups (groups operations)).
Proof.
  split; [apply schedule_concat|].
  split.
  { unfold schedule. rewrite Forall_map. apply Forall_forall.
    intros kg _. apply chunked_bound. }
  split.
  { rewrite groups_groupby, Forall_map.
    eapply Forall_impl; [apply groupby_groups|].
    intros [k g] [Hne Hk]; simpl in *. split; [exact Hne|].
    exists (- k)%Z. eapply Forall_impl; [exact Hk|]. simpl. intros; lia. }
  split.
  { intros i g h x y Hg Hh Hx Hy.
    apply groups_lookup in Hg as (k & _ & Hk & Hkx).
    apply groups_lookup in Hh as (k' & _ & Hk' & Hky).
    pose proof (groupby_adjacent _ _ _ _ _ Hk Hk') as Hne.
    apply Hkx in Hx. apply Hky in Hy. lia. }
  intros Hs i j g h x y Hij Hg Hh Hx Hy.
  apply groups_lookup in Hg as (k & _ & Hk & Hkx).
  apply groups_lookup in Hh as (k' & _ & Hk' & Hky).
  assert (StronglySorted Z.lt
            (map fst (groupby (fun o => (- priority o)%Z) operations))) as Hkeys.
  { apply groupby_sorted_keys. unfold sorted_by_priority in Hs. clear - Hs.
    induction Hs as [|o l Hl IH Hall]; [constructor|].
    constructor; [exact IH|].
    eapply Forall_impl; [exact Hall|]. simpl. intros; lia. }
  pose proof (StronglySorted_lookup_lt _ _ _ _ _ _ Hkeys Hij Hk Hk') as Hlt.
  apply Hkx in Hx. apply Hky in Hy. lia.
Qed.

(** A batch sorted by descending priority is walked group by group. *)
Lemma C1_sorted_batch_witness :
  sorted_by_priority Sample.sorted_batch
  /\ descending_groups (groups Sample.sorted_batch).
Proof.
  assert (sorted_by_priority Sample.sorted_batch) as Hs.
  { unfold sorted_by_priority, Sample.sorted_batch.
    repeat constructor; simpl; lia. }
  split; [exact Hs|].
  destruct (C1_schedule_partition Sample.sorted_batch) as (_ & _ & _ & _ & H).
  exact (H Hs).
Defined.

(** The batch [a; b; c] with priorities 0, 1, 0 is walked as it comes: three
    groups, the operation of priority 1 in the middle and the two operations
    of priority 0 apart. *)
Lemma C1_unsorted_batch_counterexample :
  schedule Sample.unsorted_batch = [[[Sample.a]]; [[Sample.b]]; [[Sample.c]]]
  /\ ~ descending_groups (groups Sample.unsorted_batch).
Proof.
  split; [reflexivity|].
  intros H.
  specialize (H 0 1 [Sample.a] [Sample.b] Sample.a Sample.b).
  assert (priority Sample.b < priority Sample.a)%Z as Hlt.
  { apply H; [lia|reflexivity|reflexivity|left|left]. }
  simpl in Hlt. lia.
Qed.

(* ===================================================================== *)
(** * The counter of executed operations and the result of [execute] *)
(* ===================================================================== *)

(** C2, as the code has it. [execute] has no return value: when it returns,
    it returns [None]. The count is kept in [_executed_operations]: a
    dispatch raises it by one exactly when the operation is not skipped,
    the executor is enabled and not in dry-run mode, and the dispatch
    completes without raising, and leaves it alone otherwise; over a whole
    batch it never decreases and grows by at most the number of operations
    that are not skipped. *)
Theorem C2_executed_counter (ext : Collab) (operations : list Operation) (s : State) :
  (forall v s', execute ext operations s = (Ok v, s') -> v = PyNone)
  /\ _executed_operations s
     <= _executed_operations (snd (execute ext operations s))
     <= _executed_operations s + not_skipped operations
  /\ (forall operation s0 r s1,
        _execute_operation ext operation s0 = (r, s1) ->
        _executed_operations s1 =
        _executed_operations s0 + (if runs s0 operation && is_ok r then 1 else 0)).
Proof.
  split; [intros v s'; apply execute_none|].
  split; [apply (counts_execute ext operations s)|].
  intros operation s0 r s1 H.
  now apply dispatch_counter in H as (_ & _ & _ & _ & H).
Qed.

(** One operation, executed: [execute] returns [None] and the counter,
    not the result, is 1. *)
Lemma C2_returns_none_counterexample :
  let r := execute (Sample.collab true false Sample.installer_ok)
                   [Sample.a] (init ∅) in
  fst r = Ok PyNone
  /\ _executed_operations (snd r) = 1
  /\ fst r <> Ok (PyInt (Z.of_nat (_executed_operations (snd r)))).
Proof. vm_compute. repeat split. discriminate. Qed.

(** The dispatch of one installation by an enabled executor. *)
Lemma C2_dispatch_witness :
  let s0 := set_lines {[1 := 0]} (init ∅) in
  let rs := _execute_operation (Sample.collab true false Sample.installer_ok)
              Sample.a s0 in
  _executed_operations (snd rs) =
  _executed_operations s0 + (if runs s0 Sample.a && is_ok (fst rs) then 1 else 0).
Proof.
  intros s0 rs.
  destruct (C2_executed_counter (Sample.collab true false Sample.installer_ok)
              [Sample.a] (init ∅)) as (_ & _ & H).
  apply (H Sample.a s0 (fst rs) (snd rs)).
  apply surjective_pairing.
Defined.

(* ===================================================================== *)
(** * The artifact fetcher: verification *)
(* ===================================================================== *)

Lemma download_unverified ext operation s :
  files (package operation) = [] ->
  _download ext operation s = _download_archive ext operation s.
Proof.
  intros Hf. unfold _download. rewrite Hf. unfold bind.
  now destruct (_download_archive ext operation s) as [[a|e] s1].
Qed.

Lemma download_verified ext operation s archive s1 h :
  files (package operation) <> [] ->
  _download_archive ext operation s = (Ok archive, s1) ->
  hash_of ext archive (fs s1) = Ok h ->
  _download ext operation s =
  (if bool_decide ("sha256:" +:+ h ∈ declared_hashes (package operation))
   then Ok archive
   else Raise (integrity_error (package operation) archive),
   log (EHash archive) s1).
Proof.
  intros Hf Ha Hh. unfold _download. rewrite (bind_ok _ _ _ _ _ Ha).
  destruct (files (package operation)) as [|f fl] eqn:E; [congruence|].
  unfold bind, call_fs. rewrite Hh. unfold declared_hashes. rewrite E.
  now destruct (bool_decide _).
Qed.

Lemma install_download_raises ext operation s e s' :
  from_registry (package operation) ->
  _download ext operation s = (Raise e, s') ->
  _install ext operation s = (Raise e, s').
Proof.
  intros [Hd Hg] H. unfold _install. rewrite Hd, Hg.
  now apply bind_raise.
Qed.

(** C3. When the package declares hashes, the fetcher computes
    ["sha256:" + digest] of the archive it obtained and raises the integrity
    error exactly when that string is not among the declared hashes,
    returning the archive otherwise; when the fetcher raises, the install
    handler of a registry package raises with it and the installer has not
    been invoked. When the package declares no hashes, the fetcher is the
    acquisition alone: no digest is computed and the archive is returned. *)
Theorem C3_hash_verification (ext : Collab) (operation : Operation) (s : State) :
  (files (package operation) <> [] ->
   forall archive s1 h,
     _download_archive ext operation s = (Ok archive, s1) ->
     hash_of ext archive (fs s1) = Ok h ->
     let hashed := log (EHash archive) s1 in
     ("sha256:" +:+ h ∈ declared_hashes (package operation) ->
      _download ext operation s = (Ok archive, hashed))
     /\ ("sha256:" +:+ h ∉ declared_hashes (package operation) ->
         _download ext operation s =
         (Raise (integrity_error (package operation) archive), hashed))
     /\ (fst (_download ext operation s)
         = Raise (integrity_error (package operation) archive)
         <-> "sha256:" +:+ h ∉ declared_hashes (package operation)))
  /\ (files (package operation) = [] ->
      _download ext operation s = _download_archive ext operation s
      /\ extends no_hash s (snd (_download ext operation s)))
  /\ (forall e s',
        from_registry (package operation) ->
        _download ext operation s = (Raise e, s') ->
        _install ext operation s = (Raise e, s')
        /\ extends no_installer s s').
Proof.
  split; [|split].
  - intros Hf archive s1 h Ha Hh hashed.
    pose proof (download_verified ext operation s archive s1 h Hf Ha Hh) as E.
    fold hashed in E.
    destruct (bool_decide_reflect
                ("sha256:" +:+ h ∈ declared_hashes (package operation)))
      as [Hin|Hnin]; rewrite E; simpl.
    + split; [reflexivity|]. split; [contradiction|].
      split; [discriminate|contradiction].
    + split; [contradiction|]. split; [reflexivity|]. now split.
  - intros Hf. split; [now apply download_unverified|].
    rewrite (download_unverified ext operation s Hf).
    refine (proj2 (framed_download_archive ext no_hash operation _ _ _ _ s Logic.I));
      reflexivity.
  - intros e s' Hr H. split; [now apply install_download_raises|].
    pose proof (framed_download ext no_installer operation
                  eq_refl eq_refl eq_refl eq_refl eq_refl s Logic.I) as [_ Hx].
    now rewrite H in Hx.
Qed.

Lemma C3_verification_witness :
  let ext := Sample.collab true false Sample.installer_ok in
  let good := Sample.operation 1 (Install (Sample.pkg_with_hash "a" "sha256:abc")) 0 in
  let bad := Sample.operation 1 (Install (Sample.pkg_with_hash "a" "sha256:000")) 0 in
  let s := set_lines {[1 := 0]} (init ∅) in
  let archive := "/cache/artifacts/a/a.whl" in
  _download ext good s
  = (Ok archive, log (EHash archive) (snd (_download_archive ext good s)))
  /\ _download ext Sample.a s = _download_archive ext Sample.a s
  /\ _install ext bad s
     = (Raise (integrity_error (package bad) archive), snd (_download ext bad s)).
Proof.
  intros ext good bad s archive. split; [|split].
  - destruct (C3_hash_verification ext good s) as (H & _ & _).
    refine (proj1 (H _ archive (snd (_download_archive ext good s)) "abc" _ _) _).
    + discriminate.
    + vm_compute. reflexivity.
    + reflexivity.
    + constructor.
  - destruct (C3_hash_verification ext Sample.a s) as (_ & H & _).
    apply H. reflexivity.
  - destruct (C3_hash_verification ext bad s) as (_ & _ & H).
    apply H.
    + split; reflexivity.
    + vm_compute. reflexivity.
Defined.
(* ===================================================================== *)
(** * Directory installs *)
(* ===================================================================== *)

Lemma when_emit b e s : when b (emit e) s = (Ok tt, if b then log e s else s).
Proof. now destruct b. Qed.

Lemma exists_true p s : is_Some (fs s !! p) -> exists_ p s = (Ok true, s).
Proof. intros H. unfold exists_. now rewrite bool_decide_true. Qed.

Lemma exists_false p s : fs s !! p = None -> exists_ p s = (Ok false, s).
Proof. intros H. unfold exists_. rewrite H. reflexivity. Qed.

Lemma open_w_fresh p s :
  fs s !! p = None ->
  open_w p s = (Ok tt, set_fs (<[p := NFile EmptyString]> (fs s)) (log (EOpenWrite p) s)).
Proof. intros H. unfold open_w. rewrite bind_get. cbv beta. now rewrite H. Qed.

Lemma f_write_file p chunk c s :
  fs s !! p = Some (NFile c) ->
  f_write p chunk s =
  (Ok tt, set_fs (<[p := NFile (c +:+ chunk)]> (fs s)) (log (EFileWrite p chunk) s)).
Proof. intros H. unfold f_write. rewrite bind_get. cbv beta. now rewrite H. Qed.

Lemma os_remove_file p c s :
  fs s !! p = Some (NFile c) ->
  os_remove p s = (Ok tt, set_fs (delete p (fs s)) (log (ERemove p) s)).
Proof. intros H. unfold os_remove. rewrite bind_get. cbv beta. now rewrite H. Qed.

(** The start of a directory install: the status line, the manifest and
    the test for a build script. *)
Lemma install_directory_status ext (pkg : Package) (from_vcs : bool) s :
  exists s0,
    fs s0 = fs s /\ steady s s0 /\ extends console_and_installer s s0
    /\ _install_directory ext pkg from_vcs s =
       (do has_poetry <-
          match fs s !! pyproject_of ext pkg with
          | Some (NFile content) => lift (has_tool_poetry ext content)
          | Some NDir => raise (OtherError "IsADirectoryError" (pyproject_of ext pkg))
          | None => ret false
          end;
        do has_setup <- exists_ (setup_of ext pkg);
        when (negb has_setup && has_poetry && (develop pkg || negb false))
          (lift (create_poetry ext (path_parent (pyproject_of ext pkg))) ;;
           open_w (setup_of ext pkg) ;;
           emit (EBuildSetup (path_parent (pyproject_of ext pkg))) ;;
           do text <- lift (build_setup ext (path_parent (pyproject_of ext pkg)));
           f_write (setup_of ext pkg) text) ;;
        try_finally (run ext (directory_args ext pkg))
          (if negb has_setup
           then do still <- exists_ (setup_of ext pkg);
                when still (os_remove (setup_of ext pkg))
           else ret tt)) s0.
Proof.
  unfold _install_directory, io_write_line.
  erewrite bind_ok by apply when_emit.
  set (s0 := if negb from_vcs then _ else _).
  exists s0.
  assert (fs s0 = fs s) as Hfs by (unfold s0; now destruct from_vcs).
  split; [exact Hfs|]. split; [unfold s0; destruct from_vcs; repeat split|].
  split.
  { unfold s0. destruct from_vcs; simpl;
      [apply extends_refl|now apply extends_log]. }
  rewrite bind_get. cbv beta. rewrite Hfs. reflexivity.
Qed.

(** C5. Whenever a directory install synthesizes the temporary build
    script (the directory has the manifest and no build script; the
    build-system declaration is never looked at, so develop mode or not makes
    no difference), the installer runs with the script in place, the install
    returns or raises what the installer returned or raised, and the script
    is absent from the directory afterwards. *)
Theorem C5_synthesized_script_removed (ext : Collab) (pkg : Package)
    (from_vcs : bool) (s : State) (content text : string) :
  let setup := setup_of ext pkg in
  let manifest := pyproject_of ext pkg in
  let command := pip (directory_args ext pkg) in
  let scripted := <[setup := NFile text]> (fs s) in
  fs s !! manifest = Some (NFile content) ->
  has_tool_poetry ext content = Ok true ->
  fs s !! setup = None ->
  create_poetry ext (path_parent manifest) = Ok tt ->
  build_setup ext (path_parent manifest) = Ok text ->
  snd (env_run ext command scripted) !! setup <> Some NDir ->
  let rs := _install_directory ext pkg from_vcs s in
  scripted !! setup = Some (NFile text)
  /\ fst rs = fst (env_run ext command scripted)
  /\ fs (snd rs) = delete setup (snd (env_run ext command scripted))
  /\ fs (snd rs) !! setup = None.
Proof.
  intros setup manifest command scripted Hm Hp Hs Hc Hb Hd rs.
  split; [apply lookup_insert_eq|].
  assert (fs (snd rs) = delete setup (snd (env_run ext command scripted))
          /\ fst rs = fst (env_run ext command scripted)) as [Hfs Hr].
  2:{ split; [exact Hr|]. split; [exact Hfs|]. rewrite Hfs. apply lookup_delete_eq. }
  subst rs.
  destruct (install_directory_status ext pkg from_vcs s) as (s0 & Hfs & _ & _ & ->).
  fold manifest setup. rewrite Hm.
  erewrite bind_ok by (unfold lift; rewrite Hp; reflexivity).
  rewrite (bind_ok _ _ _ _ _ (exists_false setup s0 ltac:(now rewrite Hfs))).
  replace (negb false && true && (develop pkg || negb false)) with true
    by now destruct (develop pkg).
  assert (exists s1,
    (lift (create_poetry ext (path_parent manifest)) ;;
     open_w setup ;;
     emit (EBuildSetup (path_parent manifest)) ;;
     do text0 <- lift (build_setup ext (path_parent manifest));
     f_write setup text0) s0 = (Ok tt, s1) /\ fs s1 = scripted)
    as (s1 & Hsyn & Hfs1).
  { erewrite bind_ok by (unfold lift; rewrite Hc; reflexivity).
    erewrite bind_ok by (apply open_w_fresh; now rewrite Hfs).
    erewrite bind_ok by reflexivity.
    erewrite bind_ok by (unfold lift; rewrite Hb; reflexivity).
    erewrite f_write_file by (simpl; apply lookup_insert_eq).
    eexists. split; [reflexivity|].
    simpl. rewrite Hfs. apply insert_insert_eq. }
  unfold when. rewrite (bind_ok _ _ _ _ _ Hsyn).
  unfold try_finally, run, call_fs. rewrite Hfs1.
  fold (pip (directory_args ext pkg)). fold command.
  destruct (env_run ext command scripted) as [r f_out] eqn:E.
  simpl in Hd |- *. unfold bind, exists_, when. simpl.
  destruct (f_out !! setup) as [[c|]|] eqn:Ef.
  - rewrite bool_decide_true by eauto.
    erewrite os_remove_file by (simpl; exact Ef). simpl. now split.
  - contradiction.
  - rewrite bool_decide_false by (intros [? ?]; discriminate).
    simpl. now rewrite delete_id.
Qed.

Lemma C5_cleanup_witness :
  let ext := Sample.collab true false
               (Sample.installer_fails (CalledProcessError "exit status 1")) in
  let pkg := Sample.dir_pkg "lib" true in
  let s := init {[ "/proj/lib/pyproject.toml" := NFile "[tool.poetry]" ]} in
  let rs := _install_directory ext pkg false s in
  fst rs = Raise (CalledProcessError "exit status 1")
  /\ fs (snd rs) !! "/proj/lib/setup.py" = None.
Proof.
  intros ext pkg s rs.
  destruct (C5_synthesized_script_removed ext pkg false s "[tool.poetry]"
              "from setuptools import setup")
    as (_ & Hr & _ & Hgone); try reflexivity.
  - vm_compute. discriminate.
  - split; [exact Hr|exact Hgone].
Defined.

(** C10. A directory install that finds a build script in the source
    directory writes and removes nothing itself: it only reports and invokes
    the installer, so the files afterwards are those the installer left (or
    the files as they were, when reading the manifest failed), and the
    script is still present whenever the installer did not remove it,
    whether the installer succeeded or raised. *)
Theorem C10_existing_script_kept (ext : Collab) (pkg : Package)
    (from_vcs : bool) (s : State) (node : Node) :
  let setup := setup_of ext pkg in
  let outcome := env_run ext (pip (directory_args ext pkg)) (fs s) in
  fs s !! setup = Some node ->
  let rs := _install_directory ext pkg from_vcs s in
  extends console_and_installer s (snd rs)
  /\ (fs (snd rs) = fs s
      \/ (fs (snd rs) = snd outcome /\ fst rs = fst outcome))
  /\ (is_Some (snd outcome !! setup) -> is_Some (fs (snd rs) !! setup)).
Proof.
  intros setup outcome Hs rs.
  assert (extends console_and_installer s (snd rs)
          /\ (fs (snd rs) = fs s
              \/ (fs (snd rs) = snd outcome /\ fst rs = fst outcome)))
    as [Hx Hfs].
  2:{ split; [exact Hx|]. split; [exact Hfs|]. intros Hk.
      destruct Hfs as [->|[-> _]]; [rewrite Hs; eauto|exact Hk]. }
  subst rs.
  destruct (install_directory_status ext pkg from_vcs s) as (s0 & Hfs & _ & Hx0 & ->).
  fold setup.
  set (m := match fs s !! pyproject_of ext pkg with
            | Some (NFile content) => lift (has_tool_poetry ext content)
            | Some NDir => _
            | None => _
            end).
  assert (exists r, m s0 = (r, s0)) as [[b|e] Hm].
  { unfold m. destruct (fs s !! pyproject_of ext pkg) as [[c|]|]; eauto. }
  2:{ rewrite (bind_raise _ _ _ _ _ Hm). simpl. split; [exact Hx0|now left]. }
  rewrite (bind_ok _ _ _ _ _ Hm).
  rewrite (bind_ok _ _ _ _ _ (exists_true setup s0 ltac:(rewrite Hfs, Hs; eauto))).
  simpl. unfold when, try_finally, run, call_fs.
  erewrite bind_ok by reflexivity. rewrite Hfs.
  fold (pip (directory_args ext pkg)). fold outcome.
  destruct outcome as [r f_out]. simpl. split; [|right; now split].
  eapply extends_trans; [exact Hx0|].
  exists [ERun (directory_args ext pkg)]. split; [reflexivity|].
  now repeat constructor.
Qed.

Lemma C10_script_kept_witness :
  let ext := Sample.collab true false
               (Sample.installer_fails (CalledProcessError "exit status 1")) in
  let pkg := Sample.dir_pkg "lib" true in
  let s := init {[ "/proj/lib/pyproject.toml" := NFile "[tool.poetry]";
                   "/proj/lib/setup.py" := NFile "import setuptools" ]} in
  let rs := _install_directory ext pkg false s in
  is_Some (fs (snd rs) !! "/proj/lib/setup.py").
Proof.
  intros ext pkg s rs.
  destruct (C10_existing_script_kept ext pkg false s (NFile "import setuptools"))
    as (_ & _ & H); [reflexivity|].
  apply H. vm_compute. eauto.
Defined.

(* ===================================================================== *)
(** * Uninstall *)
(* ===================================================================== *)

Lemma write_row operation line s row :
  _lines s !! op_id operation = Some row ->
  let diff := str_of_Z (Z.of_nat (size (_lines s)) - Z.of_nat row) in
  _write operation line s =
  (Ok tt,
   log (EWrite (ESC +:+ "[" +:+ diff +:+ "B"))
     (log (EWriteLine line)
        (log (EWrite (ESC +:+ "[2K" +:+ CR))
           (log (EWrite (ESC +:+ "[" +:+ diff +:+ "A")) s)))).
Proof. intros H. unfold _write. rewrite bind_get. cbv beta. now rewrite H. Qed.

Lemma write_no_row operation line s :
  _lines s !! op_id operation = None ->
  _write operation line s = (Raise (KeyError (str_of_nat (op_id operation))), s).
Proof. intros H. unfold _write. rewrite bind_get. cbv beta. now rewrite H. Qed.

Lemma bind_assoc {A B C} (m : M A) (k1 : A -> M B) (k2 : B -> M C) s :
  bind (bind m k1) k2 s = bind m (fun x => bind (k1 x) k2) s.
Proof. unfold bind. now destruct (m s) as [[v|e] s1]. Qed.

(** [_remove], step by step. *)
Lemma remove_steps ext operation s :
  let p := package operation in
  let src := src_dir_of ext p in
  let checkout :=
    String.eqb (source_type p) "git" && bool_decide (is_Some (fs s !! src)) in
  let cleared :=
    if checkout
    then set_fs (without_tree src (fs s)) (log (ERmtree src) s) else s in
  let outcome := env_run ext (pip (uninstall_args p)) (fs cleared) in
  _remove ext operation s =
  (match fst outcome with
   | Ok _ => Ok tt
   | Raise e => if absent_error e then Ok tt else Raise e
   end,
   set_fs (snd outcome) (log (ERun (uninstall_args p)) cleared)).
Proof.
  intros p src checkout cleared outcome.
  unfold _remove. fold p. fold (src_dir_of ext p). fold src.
  assert ((if String.eqb (source_type p) "git"
           then do present <- exists_ src; when present (safe_rmtree src)
           else ret tt) s = (Ok tt, cleared)) as H1.
  { unfold cleared, checkout.
    destruct (String.eqb (source_type p) "git"); [|reflexivity].
    unfold bind, exists_. simpl.
    now destruct (bool_decide (is_Some (fs s !! src))). }
  rewrite (bind_ok _ _ _ _ _ H1).
  unfold try_except, bind, run, call_fs.
  fold (uninstall_args p). fold (pip (uninstall_args p)). fold outcome.
  destruct outcome as [[v|e] f']; simpl; [reflexivity|].
  destruct e; simpl; try reflexivity.
  now destruct (str_contains "not installed" msg).
Qed.

(** What an uninstall does. It first removes the checkout of a
    version-control package when, and only when, it exists, then invokes the
    installer's uninstall action for the package name. It returns normally
    when the action succeeds or fails with a [CalledProcessError] whose
    text contains [not installed]; every other failure, of that class
    without the text or of any other class, propagates. The dispatcher
    reports the removal first and returns or raises what the uninstall
    did. *)
Lemma uninstall_behaviour (ext : Collab) (operation : Operation) (p : Package) (s : State) :
  job operation = Uninstall p ->
  let src := src_dir_of ext p in
  let checkout :=
    String.eqb (source_type p) "git" && bool_decide (is_Some (fs s !! src)) in
  let seen := if checkout then without_tree src (fs s) else fs s in
  let outcome := env_run ext (pip (uninstall_args p)) seen in
  let rs := _remove ext operation s in
  out (snd rs)
  = out s ++ (if checkout then [ERmtree src] else []) ++ [ERun (uninstall_args p)]
  /\ (checkout = true -> forall path, under src path = true -> seen !! path = None)
  /\ (forall v, fst outcome = Ok v -> fst rs = Ok tt)
  /\ (forall m, fst outcome = Raise (CalledProcessError m) ->
                str_contains "not installed" m = true -> fst rs = Ok tt)
  /\ (forall e, fst outcome = Raise e -> absent_error e = false ->
                fst rs = Raise e)
  /\ (runs s operation = true -> is_Some (_lines s !! op_id operation) ->
      exists reported,
        _write operation
          (BULLET +:+ get_operation_message operation
           +:+ ": <info>Removing...</info>") s = (Ok tt, reported)
        /\ fs reported = fs s
        /\ fst (_execute_operation ext operation s)
           = fst (_remove ext operation reported)).
Proof.
  intros Hj src checkout seen outcome rs.
  assert (package operation = p) as Hp by (unfold package; now rewrite Hj).
  pose proof (remove_steps ext operation s) as E. simpl in E. rewrite Hp in E.
  fold src checkout in E.
  assert (fs (if checkout
              then set_fs (without_tree src (fs s)) (log (ERmtree src) s)
              else s) = seen) as Hseen by (unfold seen; now destruct checkout).
  rewrite Hseen in E. fold outcome in E. subst rs. rewrite E. simpl.
  split; [destruct checkout; simpl; now rewrite <- ?app_assoc|].
  split.
  { intros Hc path Hu. unfold seen. rewrite Hc. unfold without_tree.
    apply map_lookup_filter_None. right. intros x _. simpl. congruence. }
  split; [now intros v ->|].
  split; [intros m -> Hm; simpl; now rewrite Hm|].
  split; [now intros e -> ->|].
  intros Hruns [row Hrow].
  pose proof (write_row operation
                (BULLET +:+ get_operation_message operation
                 +:+ ": <info>Removing...</info>") s row Hrow) as Hw.
  simpl in Hw. eexists. split; [exact Hw|]. split; [reflexivity|].
  set (reported := log _ (log _ (log _ (log _ s)))) in *.
  unfold runs in Hruns.
  destruct (skipped operation) eqn:Hsk; [discriminate|].
  destruct (_enabled s) eqn:Hen; [|discriminate].
  destruct (_dry_run s) eqn:Hdr; [discriminate|].
  unfold _execute_operation. rewrite bind_get. cbv beta.
  rewrite Hsk, Hen, Hdr, Hj. simpl.
  unfold _execute_uninstall.
  rewrite bind_assoc, (bind_ok _ _ _ _ _ Hw).
  destruct (_remove ext operation reported) as [[[]|e] s2] eqn:Er.
  2:{ now rewrite (bind_raise _ _ _ _ _ Er). }
  pose proof (framed_remove ext any_kind operation eq_refl eq_refl reported Logic.I)
    as [(_ & _ & _ & _ & _ & Hl) _].
  rewrite Er in Hl. simpl in Hl.
  rewrite (bind_ok _ _ _ _ _ Er).
  erewrite bind_ok by (apply (write_row _ _ _ row); now rewrite Hl).
  reflexivity.
Qed.

(** C4, on the code. The uninstall swallows a failure of the uninstall
    action only when it is a [CalledProcessError] whose text contains
    [not installed]; every other failure propagates out of the uninstall and
    out of the dispatcher. The failures met for a package that is not
    installed are of the other kind: an error of another class that carries
    the output of the installer, and a [CalledProcessError], whose text is
    made of the command and the exit status only. Evaluated on both, the
    uninstall of a package that is not installed raises instead of
    returning. *)
Theorem C4_uninstall_not_idempotent :
  (forall ext operation p s e,
     job operation = Uninstall p ->
     runs s operation = true ->
     is_Some (_lines s !! op_id operation) ->
     (forall f, fst (env_run ext (pip (uninstall_args p)) f) = Raise e) ->
     absent_error e = false ->
     fst (_remove ext operation s) = Raise e
     /\ fst (_execute_operation ext operation s) = Raise e)
  /\ let wrapped := OtherError "EnvCommandError"
                      "WARNING: Skipping b as it is not installed." in
     let exited := CalledProcessError
                     "Command '['python', '-m', 'pip', 'uninstall', 'b', '-y']' returned non-zero exit status 1." in
     let s := set_lines {[2 := 0]} (init ∅) in
     job Sample.b = Uninstall (Sample.pkg "b")
     /\ runs s Sample.b = true
     /\ str_contains "not installed" (str_exn wrapped) = true
     /\ fst (_execute_operation
               (Sample.collab true false (Sample.installer_fails wrapped))
               Sample.b s) = Raise wrapped
     /\ fst (_execute_operation
               (Sample.collab true false (Sample.installer_fails exited))
               Sample.b s) = Raise exited.
Proof.
  split; [|vm_compute; repeat split].
  intros ext operation p s e Hj Hruns Hrow Hfail Habs.
  destruct (uninstall_behaviour ext operation p s Hj)
    as (_ & _ & _ & _ & Hraise & Hdispatch).
  split; [now apply Hraise|].
  destruct (Hdispatch Hruns Hrow) as (reported & _ & _ & ->).
  destruct (uninstall_behaviour ext operation p reported Hj)
    as (_ & _ & _ & _ & Hraise' & _).
  now apply Hraise'.
Qed.

(** The installer reports the absent package in an error of its own class:
    the dispatch of the uninstall raises it. *)
Lemma C4_not_idempotent_witness :
  let wrapped := OtherError "EnvCommandError"
                   "WARNING: Skipping b as it is not installed." in
  let ext := Sample.collab true false (Sample.installer_fails wrapped) in
  let s := set_lines {[2 := 0]} (init ∅) in
  fst (_execute_operation ext Sample.b s) = Raise wrapped.
Proof.
  intros wrapped ext s.
  destruct C4_uninstall_not_idempotent as [H _].
  apply (H ext Sample.b (Sample.pkg "b") s wrapped).
  - reflexivity.
  - reflexivity.
  - vm_compute. eauto.
  - intros f. reflexivity.
  - reflexivity.
Defined.

(* ===================================================================== *)
(** * The progress lines of a chunk *)
(* ===================================================================== *)

Lemma allocate_keeps lines chunk k v :
  lines !! k = Some v -> fst (allocate lines chunk) !! k = Some v.
Proof.
  revert lines. induction chunk as [|o rest IH]; intros lines H; simpl; [exact H|].
  destruct (lines !! op_id o) eqn:E; [now apply IH|].
  simpl. apply IH. rewrite lookup_insert_ne; [exact H|]. congruence.
Qed.

Lemma allocate_size lines chunk :
  size (fst (allocate lines chunk)) = size lines + length (snd (allocate lines chunk)).
Proof.
  revert lines. induction chunk as [|o rest IH]; intros lines; simpl; [lia|].
  destruct (lines !! op_id o) eqn:E; [apply IH|].
  simpl. rewrite IH, map_size_insert_None by exact E. lia.
Qed.

(** Rows count from zero, in the order of the lines. *)
Lemma allocate_rows lines chunk i o :
  snd (allocate lines chunk) !! i = Some o ->
  fst (allocate lines chunk) !! op_id o = Some (size lines + i).
Proof.
  revert lines i. induction chunk as [|x rest IH]; intros lines i; simpl; [discriminate|].
  destruct (lines !! op_id x) eqn:E; [apply IH|].
  simpl. destruct i as [|i]; simpl.
  - intros [= <-]. apply allocate_keeps.
    rewrite lookup_insert_eq. f_equal. lia.
  - intros H. apply IH in H. rewrite H, map_size_insert_None by exact E.
    f_equal. lia.
Qed.

Lemma allocate_covers lines chunk o :
  o ∈ chunk -> is_Some (fst (allocate lines chunk) !! op_id o).
Proof.
  revert lines. induction chunk as [|x rest IH]; intros lines Ho.
  - inversion Ho.
  - simpl. destruct (lines !! op_id x) eqn:E.
    + apply elem_of_cons in Ho as [->|Ho]; [|now apply IH].
      exists n. now apply allocate_keeps.
    + simpl. apply elem_of_cons in Ho as [->|Ho]; [|now apply IH].
      eexists. apply allocate_keeps. apply lookup_insert_eq.
Qed.

Lemma allocate_distinct lines chunk :
  (forall o, o ∈ chunk -> lines !! op_id o = None) ->
  NoDup (map op_id chunk) ->
  snd (allocate lines chunk) = chunk.
Proof.
  revert lines. induction chunk as [|x rest IH]; intros lines Hl Hd; [reflexivity|].
  simpl. rewrite (Hl x) by left. simpl. f_equal.
  inversion Hd as [|? ? Hx Hrest]; subst.
  apply IH; [|exact Hrest].
  intros o Ho. rewrite lookup_insert_ne; [apply Hl; now right|].
  intros Heq. apply Hx. rewrite Heq. apply list_elem_of_In, in_map.
  now apply list_elem_of_In.
Qed.

(** The first loop computes [allocate] and prints one line per row. *)
Lemma allocate_row_loop chunk s :
  exists s1,
    for_ chunk allocate_row s = (Ok tt, s1)
    /\ _lines s1 = fst (allocate (_lines s) chunk)
    /\ out s1 = out s ++ map progress_line (snd (allocate (_lines s) chunk))
    /\ fs s1 = fs s /\ _enabled s1 = _enabled s /\ _dry_run s1 = _dry_run s
    /\ _verbose s1 = _verbose s
    /\ _executed_operations s1 = _executed_operations s.
Proof.
  revert s. induction chunk as [|o rest IH]; intros s; simpl.
  - exists s. rewrite app_nil_r. now repeat split.
  - unfold allocate_row at 1. rewrite bind_assoc, bind_get. cbv beta.
    destruct (_lines s !! op_id o) eqn:E.
    + destruct (IH s) as (s1 & H & ?). exists s1. split; [|assumption].
      rewrite <- H. reflexivity.
    + set (s0 := log (progress_line o)
                   (set_lines (<[op_id o := size (_lines s)]> (_lines s)) s)).
      destruct (IH s0) as (s1 & H & Hl & Ho & Hf & ? & ? & ? & ?).
      exists s1. split; [rewrite <- H; reflexivity|].
      simpl. split; [exact Hl|]. split; [|now repeat split].
      rewrite Ho. simpl. now rewrite <- app_assoc.
Qed.

(** C8, as the code has it. For every chunk, before any of its work is
    dispatched, the row map is rebuilt from empty and one progress line is
    printed per operation of the chunk, skipped or not (an operation
    listed twice gets one line), in chunk order; each such operation is
    recorded with the number of lines printed before its own as its row, so
    rows count from zero; dispatch starts from the state so reached. When
    the operations of the chunk are distinct, the lines are those of the
    chunk, one for one. *)
Theorem C8_progress_rows (ext : Collab) (chunk : list Operation) (s : State) :
  let rows := fst (allocate ∅ chunk) in
  let printed := snd (allocate ∅ chunk) in
  (exists s1,
     execute_chunk ext chunk s = dispatch_chunk ext chunk s1
     /\ out s1 = out s ++ map progress_line printed
     /\ _lines s1 = rows /\ fs s1 = fs s)
  /\ (forall i o, printed !! i = Some o -> rows !! op_id o = Some i)
  /\ size rows = length printed
  /\ (forall o, o ∈ chunk -> is_Some (rows !! op_id o))
  /\ (NoDup (map op_id chunk) -> printed = chunk).
Proof.
  intros rows printed.
  split.
  { destruct (allocate_row_loop chunk (set_lines ∅ s))
      as (s1 & H & Hl & Ho & Hf & _).
    exists s1. split; [|now repeat split].
    unfold execute_chunk. erewrite bind_ok by reflexivity.
    now rewrite (bind_ok _ _ _ _ _ H). }
  split.
  { intros i o H. apply allocate_rows in H. now rewrite map_size_empty in H. }
  split; [unfold rows, printed; now rewrite allocate_size, map_size_empty|].
  split; [intros o; apply allocate_covers|].
  apply allocate_distinct. intros; apply lookup_empty.
Qed.

Lemma C8_distinct_chunk_witness :
  snd (allocate ∅ Sample.unsorted_batch) = Sample.unsorted_batch.
Proof.
  destruct (C8_progress_rows (Sample.collab true false Sample.installer_ok)
              Sample.unsorted_batch (init ∅)) as (_ & _ & _ & _ & H).
  apply H. apply (bool_decide_unpack _). vm_compute. exact Logic.I.
Defined.

(** A disabled executor given one skipped operation: the operation gets a
    progress line before dispatch, and its row is 0. *)
Lemma C8_skipped_row_counterexample :
  let skippy := Sample.skipped_operation 7 (Install (Sample.pkg "a")) 0 in
  let rs := execute (Sample.collab true false Sample.installer_ok)
              [skippy] (disable (init ∅)) in
  skipped skippy = true
  /\ out (snd rs) = [progress_line skippy; ESleep]
  /\ _lines (snd rs) !! op_id skippy = Some 0.
Proof. vm_compute. repeat split. Qed.

(* ===================================================================== *)
(** * Disabled and dry-run mode *)
(* ===================================================================== *)

Lemma quiet_report e s :
  match kind e with KConsole | KSleep => true | _ => false end = true ->
  quiet s (log e s).
Proof. intros He. unfold quiet. repeat split. now apply extends_log. Qed.

Lemma quiet_emit e :
  match kind e with KConsole | KSleep => true | _ => false end = true ->
  respects muted quiet (emit e).
Proof. intros He s _. now apply quiet_report. Qed.

Lemma quiet_write_line l : respects muted quiet (io_write_line l).
Proof. now apply quiet_emit. Qed.

Lemma quiet_set_lines l : respects muted quiet (modify (set_lines l)).
Proof. intros s _. unfold quiet. repeat split. apply (extends_refl _ s). Qed.

Lemma quiet_set_total n : respects muted quiet (modify (set_total n)).
Proof. intros s _. unfold quiet. repeat split. apply (extends_refl _ s). Qed.

#[export] Hint Resolve quiet_emit quiet_write_line quiet_set_lines
  quiet_set_total : frame.

Lemma quiet_display_summary operations :
  respects muted quiet (_display_summary operations).
Proof. unfold _display_summary. frame. Qed.

Lemma quiet_allocate_row operation : respects muted quiet (allocate_row operation).
Proof. unfold allocate_row. frame. Qed.

(** What the dispatcher does when the executor is muted. *)
Lemma muted_dispatch ext operation s :
  muted s ->
  _execute_operation ext operation s =
  (Ok tt,
   if skipped operation
   then if _verbose s && (_enabled s || _dry_run s)
        then log (EWriteLine (BULLET +:+ get_operation_message operation
                              +:+ ": <fg=yellow>Skipped</> ("
                              +:+ skip_reason operation +:+ ")")) s
        else s
   else log (progress_line operation) s).
Proof.
  intros Hm. unfold _execute_operation. rewrite bind_get. cbv beta.
  destruct (skipped operation).
  - now destruct (_verbose s && _).
  - destruct Hm as [-> | ->]; [reflexivity|].
    now destruct (_enabled s).
Qed.

Lemma quiet_dispatch ext operation :
  respects muted quiet (_execute_operation ext operation).
Proof.
  intros s Hm. rewrite (muted_dispatch ext operation s Hm). simpl.
  destruct (skipped operation); [destruct (_verbose s && _)|];
    try (now apply quiet_report). apply frame_refl.
Qed.

Lemma quiet_submit_all ext chunk : respects muted quiet (submit_all ext chunk).
Proof.
  pose proof (quiet_dispatch ext).
  induction chunk as [|o rest IH]; simpl; frame.
Qed.

Lemma quiet_execute_chunk ext chunk : respects muted quiet (execute_chunk ext chunk).
Proof.
  pose proof (quiet_submit_all ext). pose proof quiet_allocate_row.
  unfold execute_chunk. frame.
  apply respects_for; [typeclasses eauto|]. frame.
Qed.

Lemma quiet_execute ext operations : respects muted quiet (execute ext operations).
Proof.
  pose proof (quiet_execute_chunk ext). pose proof quiet_display_summary.
  unfold execute. frame.
  apply respects_for; [typeclasses eauto|]. intros group _.
  apply respects_for; [typeclasses eauto|]. frame.
Qed.

(** C7, as the code has it. While the executor is disabled or in dry-run
    mode, the dispatch of an operation that is not skipped reports its
    planned-action line, exactly once, and does nothing else; the dispatch of
    a skipped operation reports at most its skip line and touches no file;
    and a whole batch leaves the files, the mode and the counter of the
    executor as they were and adds nothing to the trace but console output
    and the pause after each chunk: no cache write, no checkout creation or
    removal, no installer invocation. *)
Theorem C7_muted_executor (ext : Collab) (s : State) :
  muted s ->
  (forall operation,
     skipped operation = false ->
     _execute_operation ext operation s = (Ok tt, log (progress_line operation) s))
  /\ (forall operation,
        skipped operation = true ->
        exists s', _execute_operation ext operation s = (Ok tt, s')
                   /\ fs s' = fs s
                   /\ (out s' = out s \/ exists l, out s' = out s ++ [EWriteLine l]))
  /\ (forall operations, quiet s (snd (execute ext operations s))).
Proof.
  intros Hm. split; [|split].
  - intros operation Hs. rewrite (muted_dispatch ext operation s Hm).
    now rewrite Hs.
  - intros operation Hs. rewrite (muted_dispatch ext operation s Hm), Hs.
    eexists. split; [reflexivity|].
    destruct (_verbose s && _); simpl; eauto.
  - intros operations. now apply quiet_execute.
Qed.

Lemma C7_dry_run_witness :
  let ext := Sample.collab true false Sample.installer_ok in
  let s := dry_run true (init ∅) in
  _execute_operation ext Sample.a s = (Ok tt, log (progress_line Sample.a) s)
  /\ fs (snd (execute ext Sample.unsorted_batch s)) = fs s.
Proof.
  intros ext s.
  destruct (C7_muted_executor ext s) as (Hd & _ & Hq); [now right|].
  split; [now apply Hd|].
  now destruct (Hq Sample.unsorted_batch) as (_ & _ & _ & _ & Hfs & _).
Defined.

(** A dry run of one operation that is not skipped: its status line is
    reported twice, once by the scheduler before dispatch and once by the
    dispatcher. *)
Lemma C7_two_lines_counterexample :
  let ext := Sample.collab true false Sample.installer_ok in
  let s := dry_run true (init ∅) in
  let evs := out (snd (execute ext [Sample.a] s)) in
  muted s
  /\ skipped Sample.a = false
  /\ evs = [EWriteLine EmptyString;
            EWriteLine "Package operations: <info>1</> install, <info>0</> updates, <info>0</> removals";
            EWriteLine EmptyString;
            progress_line Sample.a; progress_line Sample.a; ESleep]
  /\ status_lines Sample.a evs = 2.
Proof. vm_compute. repeat split. now right. Qed.

(* ===================================================================== *)
(** * Cursor escapes *)
(* ===================================================================== *)

(** Whatever the console, a dispatch that runs the operation and
    completes ends by rewriting the line of the operation with cursor
    escapes. *)
Lemma dispatch_ends_with_escapes ext operation s s' :
  runs s operation = true ->
  _execute_operation ext operation s = (Ok tt, s') ->
  exists before n,
    out s' = before ++ [EWrite (ESC +:+ "[" +:+ n +:+ "A");
                        EWrite (ESC +:+ "[2K" +:+ CR);
                        EWriteLine (CHECK +:+ get_operation_message operation);
                        EWrite (ESC +:+ "[" +:+ n +:+ "B")].
Proof.
  unfold runs. intros Hruns H.
  destruct (skipped operation) eqn:Hsk; [discriminate|].
  destruct (_enabled s) eqn:Hen; [|discriminate].
  destruct (_dry_run s) eqn:Hdr; [discriminate|].
  unfold _execute_operation in H. rewrite bind_get in H. cbv beta in H.
  rewrite Hsk, Hen, Hdr in H. simpl in H.
  apply bind_inv in H as [(v & s1 & _ & H)|(e & _ & [=])].
  apply bind_inv in H as [(v2 & s2 & Hw & H)|(e & _ & [=])].
  injection H as <-.
  destruct (_lines s1 !! op_id operation) as [row|] eqn:Hrow.
  - rewrite (write_row _ _ _ _ Hrow) in Hw. injection Hw as Hs2. subst s2.
    exists (out s1). eexists. simpl. rewrite <- !app_assoc. reflexivity.
  - rewrite (write_no_row _ _ _ Hrow) in Hw. discriminate.
Qed.

(** C9, on the code. The reporter never consults the console: every
    dispatch that runs its operation and completes ends by moving the
    cursor up, erasing the line, writing the success line and moving the
    cursor back, whatever the console supports. Evaluated on a console
    without cursor control, out of debug mode and in it, and the
    installation of one registry package that is not in the cache: the
    escapes are written for the "Installing" status and the final success
    line, and in debug mode for the download progress as well. *)
Theorem C9_cursor_escapes_emitted :
  (forall ext operation s s',
     runs s operation = true ->
     _execute_operation ext operation s = (Ok tt, s') ->
     exists before n,
       out s' = before ++ [EWrite (ESC +:+ "[" +:+ n +:+ "A");
                           EWrite (ESC +:+ "[2K" +:+ CR);
                           EWriteLine (CHECK +:+ get_operation_message operation);
                           EWrite (ESC +:+ "[" +:+ n +:+ "B")])
  /\ let up := EWrite (ESC +:+ "[1A") in
     let erase := EWrite (ESC +:+ "[2K" +:+ CR) in
     let down := EWrite (ESC +:+ "[1B") in
     let plain := Sample.collab false false Sample.installer_ok in
     let debug := Sample.collab false true Sample.installer_ok in
     supports_ansi plain = false /\ supports_ansi debug = false
     /\ is_debug debug = true
     /\ List.filter is_cursor_escape
          (out (snd (execute plain [Sample.a] (init ∅))))
        = [up; erase; down; up; erase; down]
     /\ List.filter is_cursor_escape
          (out (snd (execute debug [Sample.a] (init ∅))))
        = [up; erase; down; up; erase; down; up; erase; down].
Proof.
  split; [exact dispatch_ends_with_escapes|].
  vm_compute. repeat split.
Qed.

(** On a console without cursor control, the dispatch of one installation
    ends with the escapes. *)
Lemma C9_plain_console_witness :
  let plain := Sample.collab false false Sample.installer_ok in
  let s := set_lines {[1 := 0]} (init ∅) in
  supports_ansi plain = false
  /\ exists before n,
       out (snd (_execute_operation plain Sample.a s))
       = before ++ [EWrite (ESC +:+ "[" +:+ n +:+ "A");
                    EWrite (ESC +:+ "[2K" +:+ CR);
                    EWriteLine (CHECK +:+ get_operation_message Sample.a);
                    EWrite (ESC +:+ "[" +:+ n +:+ "B")].
Proof.
  intros plain s. split; [reflexivity|].
  destruct C9_cursor_escapes_emitted as [H _].
  apply (H plain Sample.a s (snd (_execute_operation plain Sample.a s))).
  - reflexivity.
  - vm_compute. reflexivity.
Defined.

(* ===================================================================== *)
(** * The artifact cache *)
(* ===================================================================== *)

Lemma append_nil_r (x : string) : x +:+ EmptyString = x.
Proof.
  induction x as [|c x IH]; [reflexivity|].
  change (String c (x +:+ EmptyString) = String c x). now rewrite IH.
Qed.

Lemma append_assoc (x y z : string) : (x +:+ y) +:+ z = x +:+ (y +:+ z).
Proof.
  induction x as [|c x IH]; [reflexivity|].
  change (String c ((x +:+ y) +:+ z) = String c (x +:+ (y +:+ z))).
  now rewrite IH.
Qed.

Lemma length_string_of_list_ascii (l : list ascii) :
  String.length (string_of_list_ascii l) = length l.
Proof. induction l as [|c l IH]; [reflexivity|]. cbn. f_equal. exact IH. Qed.

Lemma string_of_list_ascii_app (l1 l2 : list ascii) :
  string_of_list_ascii (l1 ++ l2)
  = string_of_list_ascii l1 +:+ string_of_list_ascii l2.
Proof.
  induction l1 as [|c l1 IH]; [reflexivity|].
  change (String c (string_of_list_ascii (l1 ++ l2))
          = String c (string_of_list_ascii l1 +:+ string_of_list_ascii l2)).
  now rewrite IH.
Qed.

(** The chunks of a response are never empty, never longer than asked, and
    make up the body. *)
Lemma iter_content_bound r n :
  Forall (fun c => 1 <= String.length c <= n) (iter_content r n).
Proof.
  unfold iter_content. rewrite Forall_map.
  eapply Forall_impl; [apply chunked_bound|].
  intros c Hc. simpl. now rewrite length_string_of_list_ascii.
Qed.

Lemma iter_content_body r n : 0 < n -> join_chunks (iter_content r n) = body r.
Proof.
  intros Hn. unfold iter_content.
  rewrite <- (string_of_list_ascii_of_string (body r)) at 2.
  rewrite <- (chunked_concat (list_ascii_of_string (body r)) n Hn) at 2.
  induction (chunked (list_ascii_of_string (body r)) n) as [|c cs IH];
    [reflexivity|].
  simpl. now rewrite string_of_list_ascii_app, IH.
Qed.

Lemma requests_app l1 l2 : requests (l1 ++ l2) = requests l1 ++ requests l2.
Proof. apply List.filter_app. Qed.

Lemma file_writes_app l1 l2 :
  file_writes (l1 ++ l2) = file_writes l1 ++ file_writes l2.
Proof. apply List.filter_app. Qed.

Lemma console_events evs :
  Forall (fun e => console_only (kind e) = true) evs ->
  requests evs = [] /\ file_writes evs = [].
Proof.
  induction 1 as [|e evs He _ [IH1 IH2]]; [now split|].
  unfold requests, file_writes in *. simpl. rewrite IH1, IH2.
  now destruct e.
Qed.

#[export] Instance reporting_frame : Frame any_state reporting.
Proof.
  split.
  - intros s. repeat split. apply extends_refl.
  - intros s1 s2 s3 (S1 & F1 & E1) (S2 & F2 & E2). split; [|split].
    + eapply steady_trans; eauto.
    + congruence.
    + eapply extends_trans; eauto.
  - intros; exact Logic.I.
Qed.

Lemma reporting_emit e :
  console_only (kind e) = true -> respects any_state reporting (emit e).
Proof. intros He s _. repeat split. now apply extends_log. Qed.

Lemma reporting_write_line l : respects any_state reporting (io_write_line l).
Proof. now apply reporting_emit. Qed.

Lemma reporting_console_write l : respects any_state reporting (io_write l).
Proof. now apply reporting_emit. Qed.

#[export] Hint Resolve reporting_emit reporting_write_line
  reporting_console_write : frame.

Lemma reporting_write operation line :
  respects any_state reporting (_write operation line).
Proof. unfold _write. frame. Qed.

#[export] Hint Resolve reporting_write : frame.

Lemma mkdir_present parents p s :
  fs s !! p = Some NDir -> mkdir parents p s = (Ok tt, s).
Proof. intros H. unfold mkdir. rewrite bind_get. cbv beta. now rewrite H. Qed.

Lemma mkdir_ok parents p s s' :
  mkdir parents p s = (Ok tt, s') ->
  fs s' !! p = Some NDir
  /\ (forall q, q <> p -> fs s' !! q = fs s !! q)
  /\ steady s s'
  /\ exists evs, out s' = out s ++ evs /\ requests evs = [] /\ file_writes evs = [].
Proof.
  unfold mkdir. rewrite bind_get. cbv beta.
  destruct (fs s !! p) as [[c|]|] eqn:E; [discriminate| |].
  - intros [= <-]. repeat split; [exact E|].
    exists []. now rewrite app_nil_r.
  - destruct (_ || _); [|discriminate].
    intros [= <-]. simpl. split; [apply lookup_insert_eq|].
    split; [intros q Hq; now apply lookup_insert_ne|].
    split; [repeat split|]. now exists [EMkdir p].
Qed.

(** The download loop, when it completes: every chunk is appended to the
    archive, in order, and nothing else is written or requested. *)
Lemma download_loop_ok ext operation message wheel_size archive chunks :
  Forall (fun c => 1 <= String.length c) chunks ->
  forall done s s' c0,
    fs s !! archive = Some (NFile c0) ->
    download_loop ext operation message wheel_size archive chunks done s
    = (Ok tt, s') ->
    fs s' !! archive = Some (NFile (c0 +:+ join_chunks chunks))
    /\ (forall q, q <> archive -> fs s' !! q = fs s !! q)
    /\ exists evs, out s' = out s ++ evs
                   /\ requests evs = []
                   /\ file_writes evs = map (EFileWrite archive) chunks.
Proof.
  induction 1 as [|chunk rest Hc _ IH]; intros done s s' c0 Hf H; simpl in H.
  - injection H as <-. simpl. rewrite append_nil_r.
    split; [exact Hf|]. split; [reflexivity|].
    exists []. now rewrite app_nil_r.
  - destruct (String.length chunk =? 0) eqn:El;
      [apply Nat.eqb_eq in El; lia|].
    apply bind_inv in H as [([] & sa & Hp & H)|(e & _ & [=])].
    assert (reporting s sa) as (_ & Hfa & (e1 & Ho1 & Hk1)).
    { assert (respects any_state reporting
                (when (supports_ansi ext || is_debug ext)
                   match wheel_size with
                   | Some ws =>
                       do percent <- lift (percent_of ext (done + String.length chunk) ws);
                       _write operation
                         (message +:+ " <c2>" +:+ str_of_Z percent +:+ "%</c2>")
                   | None => ret tt
                   end)) as Hr by frame.
      specialize (Hr s Logic.I). now rewrite Hp in Hr. }
    apply console_events in Hk1 as [Hr1 Hw1].
    rewrite (bind_ok _ _ _ _ _
               (f_write_file archive chunk c0 sa ltac:(now rewrite Hfa))) in H.
    apply IH with (c0 := c0 +:+ chunk) in H; [|simpl; apply lookup_insert_eq].
    destruct H as (Ha & Hq & e3 & Ho3 & Hr3 & Hw3).
    split; [now rewrite Ha, append_assoc|].
    split.
    { intros q Hne. rewrite (Hq q Hne). simpl.
      rewrite lookup_insert_ne by congruence. now rewrite Hfa. }
    exists (e1 ++ [EFileWrite archive chunk] ++ e3). split; [|split].
    + rewrite Ho3. simpl. rewrite Ho1. now rewrite <- !app_assoc.
    + rewrite !requests_app, Hr1, Hr3. reflexivity.
    + rewrite !file_writes_app, Hw1, Hw3. reflexivity.
Qed.

(** An artifact already in the cache: nothing is requested, written or
    changed, and the cached path is returned. *)
Lemma download_archive_cached ext operation s link :
  let cache_dir := cache_dir_of ext (package operation) in
  let archive := os_path_join cache_dir (filename link) in
  choose_for ext (package operation) = Ok link ->
  fs s !! cache_dir = Some NDir ->
  is_Some (fs s !! archive) ->
  _download_archive ext operation s = (Ok archive, s).
Proof.
  intros cache_dir archive Hl Hd Ha. unfold _download_archive.
  fold (cache_dir_of ext (package operation)). fold cache_dir.
  rewrite (bind_ok _ _ _ _ _ (mkdir_present true cache_dir s Hd)).
  erewrite bind_ok by (unfold lift; rewrite Hl; reflexivity).
  fold archive.
  now rewrite (bind_ok _ _ _ _ _ (exists_true archive s Ha)).
Qed.

(** C6. Fetching an artifact that is not in the cache makes exactly one
    request; the body is read in chunks of one to 4096 bytes, each written
    to the cache file as it comes and nothing else, so that the file ends up
    holding the body; an archive that is not a wheel is then handed to the
    archive builder. Fetching again, from any state with the files so left,
    finds the cached file: nothing is requested, written or changed, and the
    cached path is what the acquisition returns (and what the fetcher
    returns when no hash is declared; declared hashes are verified as in
    C3). *)
Theorem C6_cache_reuse (ext : Collab) (operation : Operation) (s s1 : State)
    (link : Link) (response : Response) (a1 : string) :
  let p := package operation in
  let archive := os_path_join (cache_dir_of ext p) (filename link) in
  choose_for ext p = Ok link ->
  session_get ext (url link) = Ok response ->
  fs s !! archive = None ->
  archive <> cache_dir_of ext p ->
  _download_archive ext operation s = (Ok a1, s1) ->
  (exists evs,
     out s1 = out s ++ evs
     /\ requests evs = [EHttpGet (url link)]
     /\ file_writes evs = map (EFileWrite archive) (iter_content response 4096)
     /\ (is_wheel link = false -> EChefPrepare archive ∈ evs))
  /\ Forall (fun c => 1 <= String.length c <= 4096) (iter_content response 4096)
  /\ join_chunks (iter_content response 4096) = body response
  /\ fs s1 !! archive = Some (NFile (body response))
  /\ (if is_wheel link then a1 = archive else chef_prepare ext archive = Ok a1)
  /\ (forall s2, fs s2 = fs s1 ->
        _download_archive ext operation s2 = (Ok archive, s2)
        /\ (files p = [] -> _download ext operation s2 = (Ok archive, s2))).
Proof.
  intros p archive Hl Hg Hn Hne H.
  pose proof (iter_content_bound response 4096) as Hb.
  pose proof (iter_content_body response 4096 ltac:(lia)) as Hj.
  unfold _download_archive in H.
  fold p in H. fold (cache_dir_of ext p) in H.
  apply bind_inv in H as [([] & sa & Hmk & H)|(e & _ & [=])].
  apply mkdir_ok in Hmk as (Hda & Hqa & _ & e1 & Ho1 & Hr1 & Hw1).
  erewrite bind_ok in H by (unfold lift; rewrite Hl; reflexivity).
  fold archive in H.
  rewrite (bind_ok _ _ _ _ _
             (exists_false archive sa ltac:(now rewrite Hqa))) in H.
  erewrite bind_ok in H by reflexivity.
  erewrite bind_ok in H by (unfold lift; rewrite Hg; reflexivity).
  apply bind_inv in H as [([] & sc & Hmsg & H)|(e & _ & [=])].
  assert (reporting (log (EHttpGet (url link)) sa) sc) as (_ & Hfc & (e2 & Ho2 & Hk2)).
  { match type of Hmsg with ?m _ = _ =>
      assert (respects any_state reporting m) as Hr by frame end.
    specialize (Hr (log (EHttpGet (url link)) sa) Logic.I).
    now rewrite Hmsg in Hr. }
  simpl in Hfc, Ho2. apply console_events in Hk2 as [Hr2 Hw2].
  rewrite (bind_ok _ _ _ _ _
             (open_w_fresh archive sc ltac:(now rewrite Hfc, Hqa))) in H.
  apply bind_inv in H as [([] & se & Hloop & H)|(e & _ & [=])].
  apply download_loop_ok with (c0 := EmptyString) in Hloop;
    [|eapply Forall_impl; [exact Hb|]; simpl; intros; lia
     |simpl; apply lookup_insert_eq].
  destruct Hloop as (Hfe & Hqe & e3 & Ho3 & Hr3 & Hw3).
  simpl in Hfe, Hqe, Ho3. rewrite Hj in Hfe.
  assert (fs se !! cache_dir_of ext p = Some NDir) as Hde.
  { rewrite Hqe by congruence. rewrite lookup_insert_ne by congruence.
    now rewrite Hfc. }
  assert (forall sz, fs sz = fs se ->
            _download_archive ext operation sz = (Ok archive, sz)
            /\ (files p = [] -> _download ext operation sz = (Ok archive, sz)))
    as Hsecond.
  { intros sz Hz.
    assert (_download_archive ext operation sz = (Ok archive, sz)) as Hc.
    { apply download_archive_cached; [exact Hl|now rewrite Hz|].
      fold p archive. rewrite Hz, Hfe. eauto. }
    split; [exact Hc|]. intros Hfiles.
    now rewrite download_unverified. }
  split; [|split; [exact Hb|split; [exact Hj|]]].
  - destruct (is_wheel link) eqn:Ew.
    + injection H as <- <-.
      exists (e1 ++ [EHttpGet (url link)] ++ e2 ++ [EOpenWrite archive] ++ e3).
      split; [rewrite Ho3, Ho2, Ho1; now rewrite <- !app_assoc|].
      split; [rewrite !requests_app, Hr1, Hr2, Hr3; reflexivity|].
      split; [rewrite !file_writes_app, Hw1, Hw2, Hw3; reflexivity|discriminate].
    + unfold bind, emit, modify, lift in H.
      destruct (chef_prepare ext archive) as [a|e] eqn:Ec; [|discriminate].
      injection H as <- <-.
      exists (e1 ++ [EHttpGet (url link)] ++ e2 ++ [EOpenWrite archive] ++ e3
              ++ [EChefPrepare archive]).
      split; [simpl; rewrite Ho3, Ho2, Ho1; now rewrite <- !app_assoc|].
      split; [rewrite !requests_app, Hr1, Hr2, Hr3; reflexivity|].
      split; [rewrite !file_writes_app, Hw1, Hw2, Hw3; simpl;
              now rewrite app_nil_r|].
      intros _. rewrite !elem_of_app. do 5 right. left.
  - destruct (is_wheel link) eqn:Ew.
    + injection H as <- <-. split; [exact Hfe|]. split; [reflexivity|exact Hsecond].
    + unfold bind, emit, modify, lift in H.
      destruct (chef_prepare ext archive) as [a|e] eqn:Ec; [|discriminate].
      injection H as <- <-. simpl. split; [exact Hfe|].
      split; [reflexivity|exact Hsecond].
Qed.

Lemma C6_second_fetch_witness :
  let ext := Sample.collab true false Sample.installer_ok in
  let s := set_lines {[1 := 0]} (init ∅) in
  let archive := "/cache/artifacts/a/a.whl" in
  let first := snd (_download ext Sample.a s) in
  _download ext Sample.a first = (Ok archive, first).
Proof.
  intros ext s archive first.
  destruct (C6_cache_reuse ext Sample.a s (snd (_download_archive ext Sample.a s))
              {| url := "https://index/a"; filename := "a.whl"; is_wheel := true |}
              {| content_length := Some "10"; body := "0123456789" |}
              archive)
    as (_ & _ & _ & _ & _ & Hsecond).
  - reflexivity.
  - reflexivity.
  - reflexivity.
  - vm_compute. discriminate.
  - vm_compute. reflexivity.
  - apply (Hsecond first).
    + vm_compute. reflexivity.
    + reflexivity.
Defined.

(* ===================================================================== *)
(** * Further properties: chunks and groups *)
(* ===================================================================== *)

Lemma chunked_calls_nil {A} calls n : @chunked_calls A calls n [] = [].
Proof. destruct calls; [reflexivity|]. simpl. unfold take. now destruct n. Qed.

Lemma chunked_calls_full {A} (calls n : nat) (it : list A) i c :
  0 < n -> length it < calls ->
  chunked_calls calls n it !! i = Some c ->
  is_Some (chunked_calls calls n it !! S i) ->
  length c = n.
Proof.
  intros Hn. revert it i.
  induction calls as [|calls IH]; intros it i Hlen; [lia|].
  simpl. unfold take.
  destruct (firstn n it) as [|x c0] eqn:E; [discriminate|].
  destruct i as [|i]; simpl.
  - intros [= <-] [c' Hc']. rewrite <- E, length_firstn.
    destruct (skipn n it) as [|y rest] eqn:Es.
    + rewrite chunked_calls_nil in Hc'. discriminate.
    + assert (length (skipn n it) = S (length rest)) as Hl by now rewrite Es.
      rewrite length_skipn in Hl. lia.
  - apply IH. rewrite length_skipn.
    destruct it; [destruct n; discriminate|]. simpl in *. lia.
Qed.

(** X1. With a positive chunk size, [chunked] yields no chunk exactly for
    the empty list, every chunk but the last is full, and the number of
    chunks is the length divided by the chunk size, rounded up. *)
Theorem chunked_full_chunks {A} (l : list A) (n : nat) :
  0 < n ->
  (l = [] <-> chunked l n = [])
  /\ (forall i c, chunked l n !! i = Some c ->
                  S i < length (chunked l n) -> length c = n)
  /\ length l <= n * length (chunked l n) < length l + n.
Proof.
  intros Hn.
  assert (forall i c, chunked l n !! i = Some c ->
                      S i < length (chunked l n) -> length c = n) as Hfull.
  { intros i c Hc Hi. eapply chunked_calls_full; [exact Hn| |exact Hc|].
    - constructor.
    - now apply lookup_lt_is_Some_2. }
  split; [|split; [exact Hfull|]].
  - split; [intros ->; apply chunked_calls_nil|].
    intros H. rewrite <- (chunked_concat l n Hn). now rewrite H.
  - pose proof (chunked_concat l n Hn) as Hc.
    pose proof (chunked_bound l n) as Hb.
    revert Hfull Hc Hb. generalize (chunked l n). intros cs. revert l.
    induction cs as [|c cs IH]; intros l Hfull Hc Hb.
    + simpl in *. subst l. simpl. lia.
    + subst l. inversion Hb as [|? ? Hc1 Hb']; subst.
      destruct cs as [|c' cs'].
      * simpl. rewrite app_nil_r. lia.
      * pose proof (Hfull 0 c eq_refl ltac:(simpl; lia)) as Hlen.
        specialize (IH (concat (c' :: cs'))
                      (fun i x Hx Hi => Hfull (S i) x Hx ltac:(simpl in *; lia))
                      eq_refl Hb').
        change (concat (c :: c' :: cs')) with (c ++ concat (c' :: cs')).
        rewrite length_app, Hlen. simpl length in *. lia.
Qed.

Lemma chunked_full_chunks_witness :
  7 <= 3 * length (chunked [1; 2; 3; 4; 5; 6; 7] 3) < 7 + 3.
Proof.
  destruct (chunked_full_chunks [1; 2; 3; 4; 5; 6; 7] 3) as (_ & _ & H); [lia|].
  exact H.
Defined.

(** A chunk size of zero yields no chunk at all. *)
Lemma chunked_zero {A} (l : list A) : chunked l 0 = [].
Proof. reflexivity. Qed.

Lemma groupby_constant {A K} `{EqDecision K} (key : A -> K) (l : list A) k :
  l <> [] -> Forall (fun x => key x = k) l -> groupby key l = [(k, l)].
Proof.
  induction l as [|x rest IH]; intros Hne Hk; [congruence|].
  inversion Hk as [|? ? Hx Hrest]; subst.
  destruct rest as [|y rest'].
  - reflexivity.
  - change (groupby key (x :: y :: rest'))
      with (match groupby key (y :: rest') with
            | (k, g) :: gs =>
                if decide (key x = k) then (k, x :: g) :: gs
                else (key x, [x]) :: (k, g) :: gs
            | [] => [(key x, [x])]
            end).
    rewrite IH by (congruence || assumption).
    inversion Hrest; subst. now rewrite decide_True by congruence.
Qed.

(** X2. A batch whose operations all have the same priority is walked as
    one group, cut into chunks of five. *)
Theorem single_priority_one_group (operations : list Operation) (p : Z) :
  operations <> [] ->
  Forall (fun o => priority o = p) operations ->
  schedule operations = [chunked operations 5].
Proof.
  intros Hne Hp. unfold schedule.
  rewrite (groupby_constant _ _ (- p)%Z Hne); [reflexivity|].
  eapply Forall_impl; [exact Hp|]. simpl. intros; lia.
Qed.

Lemma single_priority_one_group_witness :
  schedule [Sample.a; Sample.c] = [chunked [Sample.a; Sample.c] 5].
Proof.
  apply (single_priority_one_group [Sample.a; Sample.c] 0).
  - discriminate.
  - repeat constructor.
Defined.

(* ===================================================================== *)
(** * Further properties: the announcement of a batch *)
(* ===================================================================== *)

Lemma execute_announce_walk ext operations s :
  execute ext operations s
  = (announce operations ;; walk ext operations ;; ret PyNone) s.
Proof.
  unfold execute, announce, walk, bind, modify, get. cbv beta iota.
  destruct (when (bool_decide (operations = []) && _) _ _) as [[[]|?] ?];
    [|reflexivity].
  destruct (when (negb (bool_decide (operations = [])) && _) _ _) as [[[]|?] ?];
    reflexivity.
Qed.

(** X3. An empty batch: the total is set to zero, the notice that there is
    nothing to install is printed when the executor is enabled or in
    dry-run mode and not otherwise, nothing else happens and [None] is
    returned. *)
Theorem execute_empty_batch (ext : Collab) (s : State) :
  execute ext [] s
  = (Ok PyNone,
     if _enabled s || _dry_run s
     then log (EWriteLine "No dependencies to install or update") (set_total 0 s)
     else set_total 0 s).
Proof.
  unfold execute. erewrite bind_ok by reflexivity.
  rewrite bind_get. cbv beta. simpl.
  now destruct (_enabled s || _dry_run s).
Qed.

Lemma filter_skipped_exists operations :
  Exists (fun o => skipped o = true) operations ->
  List.filter skipped operations <> [].
Proof.
  induction 1 as [o l Ho|o l _ IH]; simpl.
  - now rewrite Ho.
  - now destruct (skipped o).
Qed.

(** X4. While the executor is enabled or in dry-run mode, a batch that
    holds a skipped operation is not executed at all: the summary calls
    [self.is_verbose()], which the class does not define, so [execute]
    raises the attribute error after the first, empty line of the summary
    and before any progress line or dispatch. *)
Theorem execute_skipped_raises (ext : Collab) (operations : list Operation) (s : State) :
  _enabled s || _dry_run s = true ->
  Exists (fun o => skipped o = true) operations ->
  execute ext operations s
  = (Raise no_is_verbose, log (EWriteLine EmptyString) (set_total (length operations) s)).
Proof.
  intros Hm Hs.
  assert (operations <> []) as Hne by (intros ->; inversion Hs).
  apply filter_skipped_exists in Hs.
  unfold execute. erewrite bind_ok by reflexivity.
  rewrite bind_get. cbv beta. simpl.
  rewrite (bool_decide_false _ Hne), Hm. simpl.
  unfold _display_summary.
  destruct (List.filter skipped operations) as [|o l]; [congruence|].
  reflexivity.
Qed.

Lemma execute_skipped_raises_witness :
  let skippy := Sample.skipped_operation 7 (Install (Sample.pkg "a")) 0 in
  fst (execute (Sample.collab true false Sample.installer_ok)
         [Sample.b; skippy] (init ∅))
  = Raise no_is_verbose.
Proof.
  intros skippy.
  rewrite (execute_skipped_raises (Sample.collab true false Sample.installer_ok)
             [Sample.b; skippy] (init ∅)).
  - reflexivity.
  - reflexivity.
  - right. left. reflexivity.
Defined.

Lemma job_counts operations :
  count_job "install" operations + count_job "update" operations
  + count_job "uninstall" operations = length operations.
Proof.
  unfold count_job.
  induction operations as [|o l IH]; [reflexivity|].
  assert (forall t, length (List.filter (is_job t) (o :: l))
                    = (if is_job t o then 1 else 0)
                      + length (List.filter (is_job t) l)) as Hc
    by (intros t; simpl; now destruct (is_job t o)).
  rewrite !Hc.
  assert ((if is_job "install" o then 1 else 0)
          + (if is_job "update" o then 1 else 0)
          + (if is_job "uninstall" o then 1 else 0) = 1) as Hone
    by (unfold is_job, job_type; destruct (job o); reflexivity).
  simpl length. lia.
Qed.

Lemma filter_skipped_none operations :
  Forall (fun o => skipped o = false) operations ->
  List.filter skipped operations = [].
Proof.
  induction 1 as [|o l Ho _ IH]; [reflexivity|]. simpl. now rewrite Ho.
Qed.

Lemma filter_unskipped_all operations :
  Forall (fun o => skipped o = false) operations ->
  List.filter (fun o => negb (skipped o)) operations = operations.
Proof.
  induction 1 as [|o l Ho _ IH]; [reflexivity|].
  simpl. rewrite Ho. simpl. now rewrite IH.
Qed.

(** X5. For a batch without skipped operations the summary is three
    lines, an empty one, the counts and an empty one, and the counts of
    installs, updates and removals add up to the size of the batch. *)
Theorem display_summary_counts (operations : list Operation) (s : State) :
  Forall (fun o => skipped o = false) operations ->
  let installs := count_job "install" operations in
  let updates := count_job "update" operations in
  let uninstalls := count_job "uninstall" operations in
  _display_summary operations s
  = (Ok tt,
     log (EWriteLine EmptyString)
       (log (EWriteLine (summary_line installs updates uninstalls))
          (log (EWriteLine EmptyString) s)))
  /\ installs + updates + uninstalls = length operations.
Proof.
  intros Hs installs updates uninstalls.
  split; [|apply job_counts].
  pose proof (filter_skipped_none operations Hs) as H1.
  pose proof (filter_unskipped_all operations Hs) as H2.
  unfold _display_summary. rewrite H1, H2. reflexivity.
Qed.

Lemma display_summary_counts_witness :
  count_job "install" Sample.unsorted_batch
  + count_job "update" Sample.unsorted_batch
  + count_job "uninstall" Sample.unsorted_batch = 3.
Proof.
  destruct (display_summary_counts Sample.unsorted_batch (init ∅)) as [_ H].
  - repeat constructor.
  - exact H.
Defined.

(* ===================================================================== *)
(** * Further properties: rows, joins and failures *)
(* ===================================================================== *)

(** X6. Once the rows of a chunk are allocated, rewriting the line of the
    operation that was given the [i]-th line succeeds: the cursor is moved
    up by the number of lines of the chunk minus [i], which is at least one
    and at most that number, the line is erased and written, and the cursor
    is moved back down by the same amount. *)
Theorem write_targets_row (chunk : list Operation) (s : State)
    (operation : Operation) (i : nat) (line : string) :
  _lines s = fst (allocate ∅ chunk) ->
  snd (allocate ∅ chunk) !! i = Some operation ->
  let lines := Z.of_nat (length (snd (allocate ∅ chunk))) in
  let diff := (lines - Z.of_nat i)%Z in
  fst (_write operation line s) = Ok tt
  /\ out (snd (_write operation line s))
     = out s ++ [cursor_up diff; erase_line; EWriteLine line; cursor_down diff]
  /\ (1 <= diff <= lines)%Z.
Proof.
  intros Hl Hi lines diff.
  pose proof (allocate_rows ∅ chunk i operation Hi) as Hrow.
  rewrite map_size_empty in Hrow. simpl in Hrow.
  pose proof (allocate_size ∅ chunk) as Hsize.
  rewrite map_size_empty in Hsize. simpl in Hsize.
  apply lookup_lt_Some in Hi.
  rewrite <- Hl in Hrow, Hsize.
  rewrite (write_row operation line s i Hrow). simpl.
  rewrite Hsize. fold lines diff.
  split; [reflexivity|]. split; [now rewrite <- !app_assoc|].
  unfold diff, lines. lia.
Qed.

Lemma write_targets_row_witness :
  let s := set_lines (fst (allocate ∅ Sample.unsorted_batch)) (init ∅) in
  out (snd (_write Sample.b "line" s))
  = [cursor_up 2; erase_line; EWriteLine "line"; cursor_down 2].
Proof.
  intros s.
  destruct (write_targets_row Sample.unsorted_batch s Sample.b 1 "line")
    as (_ & H & _); [reflexivity|reflexivity|].
  exact H.
Defined.

Lemma runs_mode s s' operation :
  _enabled s' = _enabled s -> _dry_run s' = _dry_run s ->
  runs s' operation = runs s operation.
Proof. unfold runs. now intros -> ->. Qed.

Lemma results_first_error {A} (tasks : list (Res A)) s :
  match first_error tasks with
  | Some e => results tasks s = (Raise e, s)
  | None => exists vs, results tasks s = (Ok vs, s)
  end.
Proof.
  induction tasks as [|[v|e] tasks IH]; simpl.
  - now exists [].
  - destruct (first_error tasks) as [e|].
    + now rewrite (bind_raise _ _ _ _ _ IH).
    + destruct IH as [vs IH]. rewrite (bind_ok _ _ _ _ _ IH). now exists (v :: vs).
  - reflexivity.
Qed.

Lemma filter_cons_length {A} (f : A -> bool) x l :
  length (List.filter f (x :: l))
  = (if f x then 1 else 0) + length (List.filter f l).
Proof. simpl. now destruct (f x). Qed.

Lemma submit_all_dispatches ext chunk s :
  submit_all ext chunk s
  = (Ok (fst (dispatches ext chunk s)), snd (dispatches ext chunk s))
  /\ length (fst (dispatches ext chunk s)) = length chunk
  /\ _enabled (snd (dispatches ext chunk s)) = _enabled s
  /\ _dry_run (snd (dispatches ext chunk s)) = _dry_run s
  /\ _executed_operations (snd (dispatches ext chunk s))
     = _executed_operations s
       + length (List.filter (completed s)
                   (zip chunk (fst (dispatches ext chunk s)))).
Proof.
  revert s. induction chunk as [|o rest IH]; intros s.
  - simpl. repeat split; lia.
  - destruct (_execute_operation ext o s) as [r s1] eqn:E.
    destruct (IH s1) as (Hs & Hl & Hen & Hdr & Hc).
    pose proof (dispatch_counter ext o s r s1 E) as (Hd1 & He1 & _ & _ & Hc1).
    cbn [dispatches submit_all]. rewrite E. cbn [fst snd].
    split; [|split; [|split; [|split]]].
    + unfold submit. erewrite bind_ok by (rewrite E; reflexivity).
      now rewrite (bind_ok _ _ _ _ _ Hs).
    + simpl. now rewrite Hl.
    + congruence.
    + congruence.
    + rewrite Hc.
      rewrite (List.filter_ext (completed s1) (completed s))
        by (intros [o' r']; unfold completed; simpl;
            now rewrite (runs_mode s s1 o' He1 Hd1)).
      change (zip (o :: rest) (r :: fst (dispatches ext rest s1)))
        with ((o, r) :: zip rest (fst (dispatches ext rest s1))).
      rewrite filter_cons_length.
      assert (completed s (o, r) = (runs s o && is_ok r)) as -> by reflexivity.
      rewrite Hc1. destruct (runs s o && is_ok r); lia.
Qed.

(** X7. Every operation of a chunk is dispatched, in submission order,
    each from the state its predecessor left and whatever the earlier ones
    returned or raised: submitting the chunk never raises, and its tasks
    are, one per operation, what these dispatches returned or raised. The
    counter grows by the number of operations that ran and completed.
    Joining the tasks raises the exception of the first task, in submission
    order, that raised; it pauses and returns when none raised. *)
Theorem chunk_dispatch_joins (ext : Collab) (chunk : list Operation)
    (s s' : State) (tasks : list (Res unit)) :
  dispatches ext chunk s = (tasks, s') ->
  submit_all ext chunk s = (Ok tasks, s')
  /\ length tasks = length chunk
  /\ _executed_operations s'
     = _executed_operations s
       + length (List.filter (completed s) (zip chunk tasks))
  /\ (forall e, first_error tasks = Some e ->
      fst (dispatch_chunk ext chunk s) = Raise e)
  /\ (first_error tasks = None ->
      dispatch_chunk ext chunk s = (Ok tt, log ESleep s')).
Proof.
  intros Hd.
  destruct (submit_all_dispatches ext chunk s) as (Hs & Hl & _ & _ & Hc).
  rewrite Hd in Hs, Hl, Hc. cbn [fst snd] in Hs, Hl, Hc.
  split; [exact Hs|]. split; [exact Hl|]. split; [exact Hc|].
  pose proof (results_first_error tasks s') as Hr.
  unfold dispatch_chunk. rewrite (bind_ok _ _ _ _ _ Hs).
  split.
  - intros e He. rewrite He in Hr. now rewrite (bind_raise _ _ _ _ _ Hr).
  - intros He. rewrite He in Hr. destruct Hr as [vs Hr].
    now rewrite (bind_ok _ _ _ _ _ Hr).
Qed.

(** The uninstall of [b] fails and the install of [a], submitted after it,
    is dispatched all the same: the installer is invoked for both, the
    second task returns and the counter grows by one. *)
Lemma chunk_dispatch_joins_witness :
  let e := OtherError "EnvCommandError" "uninstall failed" in
  let ext := Sample.collab true false (uninstall_fails e) in
  let chunk := [Sample.b; Sample.a] in
  let s := set_lines (fst (allocate ∅ chunk)) (init ∅) in
  let tasks := fst (dispatches ext chunk s) in
  let s' := snd (dispatches ext chunk s) in
  tasks = [Raise e; Ok tt]
  /\ installer_calls (out s')
     = [ERun ["uninstall"; "b"; "-y"];
        ERun ["install"; "--no-deps"; "/cache/artifacts/a/a.whl"]]
  /\ submit_all ext chunk s = (Ok tasks, s')
  /\ _executed_operations s' = _executed_operations s + 1
  /\ fst (dispatch_chunk ext chunk s) = Raise e.
Proof.
  intros e ext chunk s tasks s'.
  destruct (chunk_dispatch_joins ext chunk s s' tasks)
    as (Hs & _ & Hc & Hraise & _).
  - unfold tasks, s'. now destruct (dispatches ext chunk s).
  - split; [vm_compute; reflexivity|].
    split; [vm_compute; reflexivity|].
    split; [exact Hs|].
    split; [rewrite Hc; vm_compute; reflexivity|].
    apply Hraise. vm_compute. reflexivity.
Defined.

Lemma for_app {A} (l1 l2 : list A) (body : A -> M unit) s :
  for_ (l1 ++ l2) body s = (for_ l1 body ;; for_ l2 body) s.
Proof.
  revert s. induction l1 as [|x l1 IH]; intros s; simpl; [reflexivity|].
  rewrite bind_assoc.
  destruct (body x s) as [[[]|e] s1] eqn:E.
  - rewrite !(bind_ok _ _ _ _ _ E). apply IH.
  - now rewrite !(bind_raise _ _ _ _ _ E).
Qed.

Lemma for_concat {A} (ls : list (list A)) (body : A -> M unit) s :
  for_ ls (fun l => for_ l body) s = for_ (concat ls) body s.
Proof.
  revert s. induction ls as [|l ls IH]; intros s; simpl; [reflexivity|].
  rewrite for_app.
  destruct (for_ l body s) as [[[]|e] s1] eqn:E.
  - rewrite !(bind_ok _ _ _ _ _ E). apply IH.
  - now rewrite !(bind_raise _ _ _ _ _ E).
Qed.

(** X8. The first chunk that raises ends the batch: when the announcement
    and the chunks before it went through and the chunk raises, [execute]
    raises the same exception in the state that chunk left, so that no
    later chunk or group is started. *)
Theorem execute_stops_at_failure (ext : Collab) (operations : list Operation)
    (s s0 s1 s2 : State) (before after : list (list Operation))
    (chunk : list Operation) (e : Exn) :
  announce operations s = (Ok tt, s0) ->
  concat (schedule operations) = before ++ chunk :: after ->
  for_ before (execute_chunk ext) s0 = (Ok tt, s1) ->
  execute_chunk ext chunk s1 = (Raise e, s2) ->
  execute ext operations s = (Raise e, s2).
Proof.
  intros Ha Hc Hb He.
  rewrite execute_announce_walk, (bind_ok _ _ _ _ _ Ha).
  apply bind_raise. unfold walk.
  rewrite for_concat, Hc, for_app, (bind_ok _ _ _ _ _ Hb).
  simpl. now apply bind_raise.
Qed.

Lemma execute_stops_at_failure_witness :
  let ext := Sample.collab true false
               (Sample.installer_fails (CalledProcessError "exit status 1")) in
  let s := init ∅ in
  let s0 := snd (announce Sample.sorted_batch s) in
  execute ext Sample.sorted_batch s
  = (Raise (CalledProcessError "exit status 1"),
     snd (execute_chunk ext [Sample.b] s0)).
Proof.
  intros ext s s0.
  apply (execute_stops_at_failure ext Sample.sorted_batch s s0 s0
           (snd (execute_chunk ext [Sample.b] s0)) [] [[Sample.a; Sample.c]]
           [Sample.b]).
  - vm_compute. reflexivity.
  - reflexivity.
  - reflexivity.
  - vm_compute. reflexivity.
Defined.

(* ===================================================================== *)
(** * Further properties: the install handlers *)
(* ===================================================================== *)

Lemma framed_install_git_gen ext allowed pkg :
  allowed KConsole = true -> allowed KFile = true -> allowed KGit = true ->
  allowed KBuilder = true -> allowed KInstaller = true ->
  respects any_state (framed allowed) (_install_git ext pkg).
Proof.
  intros Hc Hf Hg Hb Hi. unfold _install_git.
  pose proof (framed_clone ext allowed).
  pose proof (framed_install_directory ext allowed).
  frame.
Qed.

(** A directory install that returns has invoked the installer. *)
Lemma install_directory_runs ext (pkg : Package) (from_vcs : bool) s v s' :
  _install_directory ext pkg from_vcs s = (Ok v, s') ->
  exists b c, out s' = out s ++ b ++ [ERun (directory_args ext pkg)] ++ c.
Proof.
  intros H.
  destruct (install_directory_status ext pkg from_vcs s)
    as (s0 & _ & _ & (e0 & Ho0 & _) & E).
  rewrite E in H. clear E.
  apply bind_inv in H as [(b & sa & Hm & H)|(e & _ & [=])].
  assert (respects any_state (framed any_kind)
            match fs s !! pyproject_of ext pkg with
            | Some (NFile content) => lift (has_tool_poetry ext content)
            | Some NDir => raise (OtherError "IsADirectoryError" (pyproject_of ext pkg))
            | None => ret false
            end) as Hr1 by frame.
  pose proof (Hr1 s0 Logic.I) as [_ (e1 & Ho1 & _)]. rewrite Hm in Ho1. simpl in Ho1.
  apply bind_inv in H as [(hs & sb & Hx & H)|(e & _ & [=])].
  unfold exists_ in Hx. injection Hx as _ <-.
  apply bind_inv in H as [([] & sc & Hw & H)|(e & _ & [=])].
  match type of Hw with ?m _ = _ =>
    assert (respects any_state (framed any_kind) m) as Hr2 by frame end.
  pose proof (Hr2 sa Logic.I) as [_ (e2 & Ho2 & _)]. rewrite Hw in Ho2. simpl in Ho2.
  unfold try_finally, run, call_fs in H.
  destruct (env_run ext _ (fs sc)) as [r f'].
  match type of H with context [?m (set_fs f' ?st)] =>
    assert (respects any_state (framed any_kind) m) as Hr3 by frame;
    pose proof (Hr3 (set_fs f' st) Logic.I) as [_ (e3 & Ho3 & _)];
    destruct (m (set_fs f' st)) as [[[]|e] sd]
  end; [|discriminate].
  injection H as _ <-. simpl in Ho3.
  exists (e0 ++ e1 ++ e2), e3.
  rewrite Ho3, Ho2, Ho1, Ho0. now rewrite <- !app_assoc.
Qed.

(** The nested [_clone], when it returns. *)
Lemma clone_returns ext (pkg : Package) s derived s' :
  _clone ext pkg s = (Ok derived, s') ->
  develop derived = true /\ root_dir derived = None
  /\ source_url derived = src_dir_of ext pkg
  /\ exists b,
       out s' = out s ++ b ++ [EGitClone (source_url pkg) (src_dir_of ext pkg);
                               EGitCheckout (source_reference pkg) (src_dir_of ext pkg)].
Proof.
  unfold _clone. fold (src_dir_of ext pkg). intros H.
  apply bind_inv in H as [(present & sa & Hx & H)|(e & _ & [=])].
  unfold exists_ in Hx. injection Hx as _ <-.
  apply bind_inv in H as [([] & sb & Hr & H)|(e & _ & [=])].
  assert (respects any_state (framed any_kind)
            (when present (safe_rmtree (src_dir_of ext pkg)))) as Hf1 by frame.
  pose proof (Hf1 s Logic.I) as [_ (e1 & Ho1 & _)]. rewrite Hr in Ho1. simpl in Ho1.
  apply bind_inv in H as [([] & sc & Hm & H)|(e & _ & [=])].
  pose proof (framed_mkdir any_kind false (path_parent (src_dir_of ext pkg))
                eq_refl sb Logic.I) as [_ (e2 & Ho2 & _)].
  rewrite Hm in Ho2. simpl in Ho2.
  apply bind_inv in H as [([] & sd & Hc & H)|(e & _ & [=])].
  unfold call_fs in Hc.
  destruct (git_clone ext _ _ (fs sc)) as [rc fc]. injection Hc as -> <-.
  apply bind_inv in H as [([] & se & Hk & H)|(e & _ & [=])].
  unfold call_fs in Hk. simpl in Hk.
  destruct (git_checkout ext _ _ fc) as [rk fk]. injection Hk as -> <-.
  injection H as <- <-. simpl.
  repeat split. exists (e1 ++ e2).
  rewrite Ho2, Ho1. now rewrite <- !app_assoc.
Qed.

Lemma clone_fails ext (pkg : Package) s :
  (forall f, is_ok (fst (git_clone ext (source_url pkg) (src_dir_of ext pkg) f)) = false)
  \/ (forall f, is_ok (fst (git_checkout ext (source_reference pkg)
                              (src_dir_of ext pkg) f)) = false) ->
  is_ok (fst (_clone ext pkg s)) = false.
Proof.
  intros Hfail.
  destruct (_clone ext pkg s) as [[derived|e] s'] eqn:H; [exfalso|reflexivity].
  unfold _clone in H. fold (src_dir_of ext pkg) in H.
  apply bind_inv in H as [(present & sa & _ & H)|(e & _ & [=])].
  apply bind_inv in H as [([] & sb & _ & H)|(e & _ & [=])].
  apply bind_inv in H as [([] & sc & _ & H)|(e & _ & [=])].
  apply bind_inv in H as [([] & sd & Hc & H)|(e & _ & [=])].
  unfold call_fs in Hc.
  destruct (git_clone ext _ _ (fs sc)) as [rc fc] eqn:Ec. injection Hc as -> <-.
  apply bind_inv in H as [([] & se & Hk & H)|(e & _ & [=])].
  unfold call_fs in Hk. simpl in Hk.
  destruct (git_checkout ext _ _ fc) as [rk fk] eqn:Ek. injection Hk as -> <-.
  destruct Hfail as [Hf|Hf].
  - specialize (Hf (fs sc)). now rewrite Ec in Hf.
  - specialize (Hf fc). now rewrite Ek in Hf.
Qed.

(** X9. A version-control install that returns has cloned the repository,
    checked out the reference and then invoked the installer on the
    checkout, in that order and always in editable mode, whatever the
    develop flag of the package. When the clone or the checkout fails, the
    install raises and the installer is never invoked. *)
Theorem git_install (ext : Collab) (pkg : Package) (s : State) :
  let src := src_dir_of ext pkg in
  (forall v s',
     _install_git ext pkg s = (Ok v, s') ->
     exists a b c,
       out s' = a ++ [EGitClone (source_url pkg) src;
                      EGitCheckout (source_reference pkg) src]
                  ++ b ++ [ERun ["install"; "--no-deps"; "-U"; "-e"; realpath ext src]]
                  ++ c)
  /\ ((forall f, is_ok (fst (git_clone ext (source_url pkg) src f)) = false)
      \/ (forall f, is_ok (fst (git_checkout ext (source_reference pkg) src f)) = false) ->
      is_ok (fst (_install_git ext pkg s)) = false
      /\ extends no_installer s (snd (_install_git ext pkg s))).
Proof.
  intros src. split.
  - intros v s' H. unfold _install_git in H.
    apply bind_inv in H as [([] & sa & _ & H)|(e & _ & [=])].
    apply bind_inv in H as [(derived & sb & Hc & H)|(e & _ & [=])].
    apply clone_returns in Hc as (Hdev & Hroot & Hurl & b0 & Hob).
    apply bind_inv in H as [([] & sc & Hm & H)|(e & _ & [=])].
    match type of Hm with ?m _ = _ =>
      assert (respects any_state (framed any_kind) m) as Hf by frame end.
    pose proof (Hf sb Logic.I) as [_ (e1 & Ho1 & _)]. rewrite Hm in Ho1. simpl in Ho1.
    apply bind_inv in H as [(r & sd & Hd & H)|(e & _ & [=])].
    injection H as _ <-.
    apply install_directory_runs in Hd as (b1 & c1 & Hod).
    assert (directory_args ext derived
            = ["install"; "--no-deps"; "-U"; "-e"; realpath ext src]) as Hargs.
    { unfold directory_args, req_of. now rewrite Hdev, Hroot, Hurl. }
    rewrite Hargs in Hod.
    exists (out sa ++ b0), (e1 ++ b1), c1.
    rewrite Hod, Ho1, Hob. fold src. now rewrite <- !app_assoc.
  - intros Hfail. unfold _install_git.
    match goal with |- context [bind ?m _ s] =>
      assert (exists sa, m s = (Ok tt, sa) /\ extends no_installer s sa)
        as (sa & Hm & Hxa)
    end.
    { destruct (negb (output_supports_ansi ext) || is_debug ext);
        eexists; (split; [reflexivity|now apply extends_log]). }
    rewrite (bind_ok _ _ _ _ _ Hm).
    pose proof (clone_fails ext pkg sa Hfail) as Hc.
    pose proof (framed_clone ext no_installer pkg eq_refl eq_refl sa Logic.I)
      as [_ Hxc].
    destruct (_clone ext pkg sa) as [[derived|e] sb] eqn:E; [discriminate|].
    rewrite (bind_raise _ _ _ _ _ E). simpl.
    split; [reflexivity|]. eapply extends_trans; eauto.
Qed.

(** An install that clones, checks out, installs and returns, and one whose
    clone is reached and fails. *)
Lemma git_install_witness :
  let pkg := Sample.git_pkg "g" in
  let s := init {[ "/venv" := NDir ]} in
  let failing := failing_builder_collab (OtherError "GitError" "clone failed") in
  (fst (_install_git cloning_collab pkg s) = Ok tt
   /\ exists a b c,
        out (snd (_install_git cloning_collab pkg s))
        = a ++ [EGitClone "https://host/g" "/venv/src/g";
                EGitCheckout "main" "/venv/src/g"]
            ++ b ++ [ERun ["install"; "--no-deps"; "-U"; "-e"; "/venv/src/g"]]
            ++ c)
  /\ (git_events (out (snd (_install_git failing pkg s)))
      = [EGitClone "https://host/g" "/venv/src/g"]
      /\ is_ok (fst (_install_git failing pkg s)) = false
      /\ extends no_installer s (snd (_install_git failing pkg s))).
Proof.
  intros pkg s failing. split.
  - split; [vm_compute; reflexivity|].
    destruct (git_install cloning_collab pkg s) as [H _].
    apply (H tt (snd (_install_git cloning_collab pkg s))).
    vm_compute. reflexivity.
  - split; [vm_compute; reflexivity|].
    destruct (git_install failing pkg s) as [_ H].
    apply H. left. intros f. reflexivity.
Defined.

Lemma bind_cases {A B} (m : M A) (k : A -> M B) s :
  (exists v s1, m s = (Ok v, s1) /\ bind m k s = k v s1)
  \/ (exists e s1, m s = (Raise e, s1) /\ bind m k s = (Raise e, s1)).
Proof.
  destruct (m s) as [[v|e] s1] eqn:E.
  - left. exists v, s1. split; [reflexivity|]. now apply bind_ok.
  - right. exists e, s1. split; [reflexivity|]. now apply bind_raise.
Qed.

Lemma git_events_app l1 l2 : git_events (l1 ++ l2) = git_events l1 ++ git_events l2.
Proof. apply List.filter_app. Qed.

Lemma git_events_local evs :
  Forall (fun e => local_only (kind e) = true) evs -> git_events evs = [].
Proof.
  induction 1 as [|e evs He _ IH]; [reflexivity|].
  unfold git_events in *. simpl. rewrite IH.
  now destruct (kind e).
Qed.

Lemma git_events_extends s s' :
  extends local_only s s' -> git_events (out s') = git_events (out s).
Proof.
  intros (evs & -> & H).
  rewrite git_events_app, (git_events_local _ H). apply app_nil_r.
Qed.

Lemma git_events_call {A} ev (f : FS -> Res A * FS) s r s' :
  kind ev = KGit ->
  call_fs ev f s = (r, s') -> git_events (out s') = git_events (out s) ++ [ev].
Proof.
  intros Hk H. unfold call_fs in H. destruct (f (fs s)) as [r0 f'].
  injection H as _ <-. simpl. rewrite git_events_app.
  unfold git_events at 3. simpl. now rewrite Hk.
Qed.

Ltac bind_step v s1 E :=
  match goal with
  | |- context [bind ?m ?k ?s] =>
      destruct (bind_cases m k s) as [(v & s1 & E & ->)|(v & s1 & E & ->)]
  end.

(** The git operations of the nested [_clone]: the clone of the repository
    of the package, then the checkout of its reference, both when it
    returns. *)
Lemma clone_git_events ext (pkg : Package) s :
  let src := src_dir_of ext pkg in
  let rs := _clone ext pkg s in
  exists g,
    git_events (out (snd rs)) = git_events (out s) ++ g
    /\ (g = [] \/ g = [EGitClone (source_url pkg) src]
        \/ g = [EGitClone (source_url pkg) src;
                EGitCheckout (source_reference pkg) src])
    /\ (is_ok (fst rs) = true ->
        g = [EGitClone (source_url pkg) src;
             EGitCheckout (source_reference pkg) src]).
Proof.
  intros src rs. unfold rs, _clone. fold (src_dir_of ext pkg). fold src.
  bind_step present s1 E1; [|unfold exists_ in E1; discriminate].
  unfold exists_ in E1. injection E1 as _ <-.
  assert (forall r s', when present (safe_rmtree src) s = (r, s') ->
            git_events (out s') = git_events (out s)) as H2.
  { intros r s' E. apply git_events_extends.
    assert (respects any_state (framed local_only) (when present (safe_rmtree src)))
      as Hf by frame.
    pose proof (Hf s Logic.I) as [_ Hx]. now rewrite E in Hx. }
  bind_step u2 s2 E2;
    [|exists []; rewrite app_nil_r; simpl;
      split; [eapply H2; eauto|split; [now left|discriminate]]].
  apply H2 in E2.
  assert (forall r s', mkdir false (path_parent src) s2 = (r, s') ->
            git_events (out s') = git_events (out s2)) as H3.
  { intros r s' E. apply git_events_extends.
    pose proof (framed_mkdir local_only false (path_parent src) eq_refl
                  s2 Logic.I) as [_ Hx]. now rewrite E in Hx. }
  bind_step u3 s3 E3;
    [|exists []; rewrite app_nil_r; simpl;
      split; [erewrite H3 by eauto; exact E2|split; [now left|discriminate]]].
  apply H3 in E3.
  bind_step u4 s4 E4; apply git_events_call in E4; try reflexivity.
  2:{ exists [EGitClone (source_url pkg) src]. simpl.
      split; [now rewrite E4, E3, E2|]. split; [right; now left|discriminate]. }
  bind_step u5 s5 E5; apply git_events_call in E5; try reflexivity.
  2:{ exists [EGitClone (source_url pkg) src;
              EGitCheckout (source_reference pkg) src]. simpl.
      split; [rewrite E5, E4, E3, E2; now rewrite <- app_assoc|].
      split; [right; now right|discriminate]. }
  exists [EGitClone (source_url pkg) src;
          EGitCheckout (source_reference pkg) src]. simpl.
  split; [rewrite E5, E4, E3, E2; now rewrite <- app_assoc|].
  split; [right; now right|reflexivity].
Qed.

(** X10. The install of a package from a directory or from version
    control never approaches the artifact cache. From a directory it makes
    no request to the network, runs no git operation and computes no hash.
    From version control it makes no request through the session and
    computes no hash, and its git operations are the clone of the
    repository of the package and the checkout of its reference, in that
    order, at most once each and both when the install returns. *)
Theorem non_registry_never_fetches (ext : Collab) (operation : Operation) (s : State) :
  let p := package operation in
  let src := src_dir_of ext p in
  let rs := _install ext operation s in
  (source_type p = "directory" -> extends local_only s (snd rs))
  /\ (source_type p = "git" ->
      extends no_fetch s (snd rs)
      /\ exists g,
           git_events (out (snd rs)) = git_events (out s) ++ g
           /\ (g = [] \/ g = [EGitClone (source_url p) src]
               \/ g = [EGitClone (source_url p) src;
                       EGitCheckout (source_reference p) src])
           /\ (is_ok (fst rs) = true ->
               g = [EGitClone (source_url p) src;
                    EGitCheckout (source_reference p) src])).
Proof.
  intros p src rs. unfold rs, _install. fold p. split; intros Hs; rewrite Hs.
  - assert (respects any_state (framed local_only)
              (_install_directory ext p false ;; ret tt)) as Hr.
    { pose proof (framed_install_directory ext local_only). frame. }
    apply (Hr s Logic.I).
  - change (String.eqb "git" "directory") with false.
    change (String.eqb "git" "git") with true. cbv iota.
    split; [apply (framed_install_git_gen ext no_fetch p); reflexivity|].
    unfold _install_git.
    match goal with |- context [bind ?m _ s] =>
      assert (forall r s', m s = (r, s') ->
                git_events (out s') = git_events (out s)) as H1
    end.
    { intros r s' E. apply git_events_extends.
      match type of E with ?m _ = _ =>
        assert (respects any_state (framed local_only) m) as Hf by frame end.
      pose proof (Hf s Logic.I) as [_ Hx]. now rewrite E in Hx. }
    bind_step u1 s1 E1; apply H1 in E1;
      [|exists []; rewrite app_nil_r; simpl;
        split; [exact E1|split; [now left|discriminate]]].
    destruct (clone_git_events ext p s1) as (g & Hg & Hcases & Hboth).
    fold src in Hcases, Hboth. rewrite E1 in Hg.
    bind_step derived s2 E2; rewrite E2 in Hg, Hboth; simpl in Hg, Hboth;
      [|exists g; simpl; split; [exact Hg|split; [exact Hcases|discriminate]]].
    specialize (Hboth eq_refl). subst g.
    exists [EGitClone (source_url p) src; EGitCheckout (source_reference p) src].
    split; [|split; [right; now right|reflexivity]].
    rewrite <- Hg. apply git_events_extends.
    match goal with |- context [?m s2] =>
      assert (respects any_state (framed local_only) m) as Hf
    end.
    { pose proof (framed_install_directory ext local_only). frame. }
    apply (Hf s2 Logic.I).
Qed.

(** A directory install that synthesizes the build script and returns, and
    a version-control install that clones, checks out, installs and
    returns. *)
Lemma non_registry_never_fetches_witness :
  let directory := Sample.operation 4 (Install (Sample.dir_pkg "d" false)) 0 in
  let s := init {[ "/proj" := NDir; "/proj/d" := NDir;
                   "/proj/d/pyproject.toml" := NFile "[tool.poetry]" ]} in
  let git := Sample.operation 5 (Install (Sample.git_pkg "g")) 0 in
  let t := init {[ "/venv" := NDir ]} in
  (fst (_install cloning_collab directory s) = Ok tt
   /\ installer_calls (out (snd (_install cloning_collab directory s)))
      = [ERun ["install"; "--no-deps"; "-U"; "/proj/d"]]
   /\ extends local_only s (snd (_install cloning_collab directory s)))
  /\ (fst (_install cloning_collab git t) = Ok tt
      /\ extends no_fetch t (snd (_install cloning_collab git t))
      /\ git_events (out (snd (_install cloning_collab git t)))
         = [EGitClone "https://host/g" "/venv/src/g";
            EGitCheckout "main" "/venv/src/g"]).
Proof.
  intros directory s git t. split.
  - split; [vm_compute; reflexivity|]. split; [vm_compute; reflexivity|].
    now apply (non_registry_never_fetches cloning_collab directory s).
  - split; [vm_compute; reflexivity|].
    destruct (non_registry_never_fetches cloning_collab git t) as [_ H].
    destruct (H eq_refl) as (Hx & g & Hg & _ & Hboth).
    split; [exact Hx|].
    rewrite Hg, Hboth; [reflexivity|vm_compute; reflexivity].
Defined.

(** The download loop never loses the file it writes to, however it
    ends. *)
Lemma download_loop_keeps ext operation message wheel_size archive chunks :
  forall done s r s' c0,
    fs s !! archive = Some (NFile c0) ->
    download_loop ext operation message wheel_size archive chunks done s = (r, s') ->
    (exists c, fs s' !! archive = Some (NFile c))
    /\ (forall q, q <> archive -> fs s' !! q = fs s !! q).
Proof.
  induction chunks as [|chunk rest IH]; intros done s r s' c0 Hf H; simpl in H.
  - injection H as _ <-. eauto.
  - destruct (String.length chunk =? 0); [injection H as _ <-; eauto|].
    match type of H with bind ?m _ _ = _ =>
      assert (respects any_state reporting m) as Hr by frame;
      pose proof (Hr s Logic.I) as (_ & Hfa & _);
      destruct (m s) as [[[]|e] sa] eqn:Hp
    end; simpl in Hfa.
    2:{ rewrite (bind_raise _ _ _ _ _ Hp) in H. injection H as _ <-.
        rewrite Hfa. eauto. }
    rewrite (bind_ok _ _ _ _ _ Hp) in H.
    rewrite (bind_ok _ _ _ _ _
               (f_write_file archive chunk c0 sa ltac:(now rewrite Hfa))) in H.
    apply IH with (c0 := c0 +:+ chunk) in H; [|simpl; apply lookup_insert_eq].
    destruct H as (Hc & Hq). split; [exact Hc|].
    intros q Hne. rewrite (Hq q Hne). simpl.
    rewrite lookup_insert_ne by congruence. now rewrite Hfa.
Qed.

(** X11. Once the fetcher has opened the cache file of an artifact, the
    file stays in the cache however the fetch ends, completed or broken
    off in the download loop or in the archive builder: every later fetch,
    from the files so left, finds it, requests nothing and returns its
    path, whatever the file holds. *)
Theorem opened_archive_is_cached (ext : Collab) (operation : Operation) (s : State)
    (link : Link) (response : Response) :
  let p := package operation in
  let archive := os_path_join (cache_dir_of ext p) (filename link) in
  choose_for ext p = Ok link ->
  session_get ext (url link) = Ok response ->
  fs s !! archive = None ->
  archive <> cache_dir_of ext p ->
  (forall c, fs s !! cache_dir_of ext p <> Some (NFile c)) ->
  is_Some (_lines s !! op_id operation) ->
  let first := snd (_download_archive ext operation s) in
  (exists content, fs first !! archive = Some (NFile content))
  /\ (forall s2, fs s2 = fs first ->
         _download_archive ext operation s2 = (Ok archive, s2)).
Proof.
  intros p archive Hl Hg Hn Hne Hcd [row Hrow] first.
  assert ((exists content, fs first !! archive = Some (NFile content))
          /\ fs first !! cache_dir_of ext p = Some NDir) as [Hfile Hdir].
  2:{ split; [exact Hfile|]. intros s2 H2.
      apply download_archive_cached; [exact Hl|now rewrite H2|].
      fold p archive. rewrite H2. destruct Hfile as [c ->]. eauto. }
  subst first. unfold _download_archive.
  fold p. fold (cache_dir_of ext p).
  destruct (mkdir true (cache_dir_of ext p) s) as [[[]|e] sa] eqn:Hmk.
  2:{ exfalso. unfold mkdir in Hmk. rewrite bind_get in Hmk. cbv beta in Hmk.
      destruct (fs s !! cache_dir_of ext p) as [[c|]|] eqn:E;
        [now apply (Hcd c)|discriminate|discriminate]. }
  pose proof (framed_mkdir any_kind true (cache_dir_of ext p) eq_refl s Logic.I)
    as [(_ & _ & _ & _ & _ & Hla) _].
  rewrite Hmk in Hla. simpl in Hla.
  rewrite (bind_ok _ _ _ _ _ Hmk).
  apply mkdir_ok in Hmk as (Hda & Hqa & _).
  erewrite bind_ok by (unfold lift; rewrite Hl; reflexivity).
  fold archive.
  rewrite (bind_ok _ _ _ _ _
             (exists_false archive sa ltac:(now rewrite Hqa))).
  erewrite bind_ok by reflexivity.
  erewrite bind_ok by (unfold lift; rewrite Hg; reflexivity).
  match goal with |- context [bind ?m _ (log ?ev sa)] =>
    assert (exists sc, m (log ev sa) = (Ok tt, sc) /\ fs sc = fs sa)
      as (sc & Hmsg & Hfc)
  end.
  { destruct (negb (supports_ansi ext) || is_debug ext);
      [eexists; split; reflexivity|].
    destruct (content_length response); [|eexists; split; reflexivity].
    erewrite write_row by (simpl; rewrite Hla; exact Hrow).
    eexists; split; reflexivity. }
  rewrite (bind_ok _ _ _ _ _ Hmsg).
  rewrite (bind_ok _ _ _ _ _
             (open_w_fresh archive sc ltac:(now rewrite Hfc, Hqa))).
  match goal with |- context [bind (download_loop ?a ?b ?c ?d ?e ?f ?g) _ ?st] =>
    destruct (download_loop a b c d e f g st) as [[[]|e1] se] eqn:Hloop;
    apply download_loop_keeps with (c0 := EmptyString) in Hloop as Hkeep;
    try (simpl; apply lookup_insert_eq)
  end.
  - rewrite (bind_ok _ _ _ _ _ Hloop).
    destruct Hkeep as (Hfile & Hq).
    assert (fs se !! cache_dir_of ext p = Some NDir) as Hde.
    { rewrite Hq by congruence. simpl. rewrite lookup_insert_ne by congruence.
      now rewrite Hfc. }
    destruct (is_wheel link); [now split|].
    unfold bind, emit, modify, lift.
    destruct (chef_prepare ext archive); simpl; now split.
  - rewrite (bind_raise _ _ _ _ _ Hloop). simpl.
    destruct Hkeep as (Hfile & Hq). split; [exact Hfile|].
    rewrite Hq by congruence. simpl. rewrite lookup_insert_ne by congruence.
    now rewrite Hfc.
Qed.

Lemma opened_archive_is_cached_witness :
  let s := set_lines {[1 := 0]} (init ∅) in
  let first := _download_archive zero_length_collab Sample.a s in
  fst first = Raise (OtherError "ZeroDivisionError" "division by zero")
  /\ fs (snd first) !! "/cache/artifacts/a/a.whl" = Some (NFile EmptyString)
  /\ _download_archive zero_length_collab Sample.a (snd first)
     = (Ok "/cache/artifacts/a/a.whl", snd first).
Proof.
  intros s first.
  destruct (opened_archive_is_cached zero_length_collab Sample.a s
              {| url := "https://index/a"; filename := "a.whl"; is_wheel := true |}
              {| content_length := Some "0"; body := "0123456789" |})
    as (_ & H).
  - reflexivity.
  - reflexivity.
  - reflexivity.
  - vm_compute. discriminate.
  - intros c. vm_compute. discriminate.
  - vm_compute. eauto.
  - split; [vm_compute; reflexivity|]. split; [vm_compute; reflexivity|].
    apply (H (snd first)). reflexivity.
Defined.

(** X12. When the builder fails to produce the build script of a directory
    install, after the script file has been opened for writing, the install
    raises the builder's exception, the installer is not invoked, and the
    empty script is left in the source directory: the cleanup guards the
    installer only. *)
Theorem failed_synthesis_leaves_script (ext : Collab) (pkg : Package)
    (from_vcs : bool) (s : State) (content : string) (e : Exn) :
  let setup := setup_of ext pkg in
  let manifest := pyproject_of ext pkg in
  fs s !! manifest = Some (NFile content) ->
  has_tool_poetry ext content = Ok true ->
  fs s !! setup = None ->
  create_poetry ext (path_parent manifest) = Ok tt ->
  build_setup ext (path_parent manifest) = Raise e ->
  let rs := _install_directory ext pkg from_vcs s in
  fst rs = Raise e
  /\ fs (snd rs) = <[setup := NFile EmptyString]> (fs s)
  /\ extends no_installer s (snd rs).
Proof.
  intros setup manifest Hm Hp Hs Hc Hb rs. subst rs.
  unfold _install_directory, io_write_line.
  erewrite bind_ok by apply when_emit.
  set (s0 := if negb from_vcs then _ else _).
  assert (fs s0 = fs s) as Hfs by (unfold s0; now destruct from_vcs).
  assert (extends no_installer s s0) as Hx0.
  { unfold s0. destruct from_vcs; simpl;
      [apply extends_refl|now apply extends_log]. }
  rewrite bind_get. cbv beta.
  fold (req_of ext pkg). fold (pyproject_of ext pkg). fold (setup_of ext pkg).
  fold manifest setup. rewrite Hfs, Hm.
  erewrite bind_ok by (unfold lift; rewrite Hp; reflexivity).
  rewrite (bind_ok _ _ _ _ _ (exists_false setup s0 ltac:(now rewrite Hfs))).
  replace (negb false && true && (develop pkg || negb false)) with true
    by now destruct (develop pkg).
  unfold when.
  match goal with |- context [bind ?m _ s0] =>
    assert (m s0 = (Raise e,
                    log (EBuildSetup (path_parent manifest))
                      (set_fs (<[setup := NFile EmptyString]> (fs s0))
                         (log (EOpenWrite setup) s0)))) as Hsyn
  end.
  { erewrite bind_ok by (unfold lift; rewrite Hc; reflexivity).
    erewrite bind_ok by (apply open_w_fresh; now rewrite Hfs).
    erewrite bind_ok by reflexivity.
    apply bind_raise. unfold lift. now rewrite Hb. }
  rewrite (bind_raise _ _ _ _ _ Hsyn). simpl.
  split; [reflexivity|]. split; [now rewrite Hfs|].
  eapply extends_trans; [exact Hx0|].
  exists [EOpenWrite setup; EBuildSetup (path_parent manifest)].
  split; [simpl; now rewrite <- app_assoc|]. now repeat constructor.
Qed.

Lemma failed_synthesis_leaves_script_witness :
  let ext := failing_builder_collab (OtherError "ValueError" "no packages") in
  let pkg := Sample.dir_pkg "lib" true in
  let s := init {[ "/proj/lib/pyproject.toml" := NFile "[tool.poetry]" ]} in
  let rs := _install_directory ext pkg false s in
  fst rs = Raise (OtherError "ValueError" "no packages")
  /\ fs (snd rs) !! "/proj/lib/setup.py" = Some (NFile EmptyString).
Proof.
  intros ext pkg s rs.
  destruct (failed_synthesis_leaves_script ext pkg false s "[tool.poetry]"
              (OtherError "ValueError" "no packages"))
    as (Hr & Hf & _); try reflexivity.
  split; [exact Hr|]. subst rs. rewrite Hf. reflexivity.
Defined.

Lemma update_job_type operation :
  String.eqb (job_type operation) "update"
  = match job operation with Update _ _ => true | _ => false end.
Proof. unfold job_type. now destruct (job operation). Qed.

(** X13. The install of a registry package whose artifact was fetched
    rewrites the line of the operation to the installing status and then
    invokes the installer on the archive, without dependencies and, for an
    update only, with the upgrade flag before the archive; it returns when
    the installer does and raises what the installer raises, and leaves the
    files as the installer left them. *)
Theorem registry_install (ext : Collab) (operation : Operation)
    (s s1 : State) (archive : string) (row : nat) :
  from_registry (package operation) ->
  _download ext operation s = (Ok archive, s1) ->
  _lines s1 !! op_id operation = Some row ->
  let outcome := env_run ext (pip (archive_args operation archive)) (fs s1) in
  let diff := (Z.of_nat (size (_lines s1)) - Z.of_nat row)%Z in
  let rs := _install ext operation s in
  fst rs = match fst outcome with Ok _ => Ok tt | Raise e => Raise e end
  /\ out (snd rs)
     = out s1 ++ [cursor_up diff; erase_line;
                  EWriteLine (BULLET +:+ get_operation_message operation
                              +:+ ": <info>Installing...</info>");
                  cursor_down diff;
                  ERun (archive_args operation archive)]
  /\ fs (snd rs) = snd outcome.
Proof.
  intros [Hd Hg] Hdl Hrow outcome diff rs. subst rs.
  unfold _install. rewrite Hd, Hg, (bind_ok _ _ _ _ _ Hdl).
  erewrite bind_ok by (apply (write_row _ _ _ row); exact Hrow).
  rewrite update_job_type.
  assert ((if match job operation with Update _ _ => true | _ => false end
           then ["install"; "--no-deps"; "-U"; archive]
           else ["install"; "--no-deps"; archive])
          = archive_args operation archive) as ->
    by (unfold archive_args; now destruct (job operation)).
  unfold bind, run, call_fs. simpl.
  fold (pip (archive_args operation archive)). fold outcome.
  destruct outcome as [[v|e] f']; simpl;
    (split; [reflexivity|]); (split; [|reflexivity]);
    now rewrite <- !app_assoc.
Qed.

Lemma registry_install_witness :
  let ext := Sample.collab true false Sample.installer_ok in
  let target := Sample.pkg "a" in
  let operation := Sample.operation 1 (Update (Sample.pkg "a") target) 0 in
  let s := set_lines {[1 := 0]} (init ∅) in
  List.filter (fun e => match e with ERun _ => true | _ => false end)
    (out (snd (_install ext operation s)))
  = [ERun ["install"; "--no-deps"; "-U"; "/cache/artifacts/a/a.whl"]].
Proof.
  intros ext target operation s.
  destruct (registry_install ext operation s (snd (_download ext operation s))
              "/cache/artifacts/a/a.whl" 0) as (_ & H & _).
  - split; reflexivity.
  - vm_compute. reflexivity.
  - vm_compute. reflexivity.
  - rewrite H. vm_compute. reflexivity.
Defined.
